(** * Evently booking platform: booking engine, seats, waitlist, pricing

    A shallow embedding of the service layer of the platform
    ([services/booking_service.py], [services/seat_service.py],
    [services/waitlist_service.py], [services/dynamic_pricing_service.py])
    over the tables declared in [models/], with the retry decorator of
    [utils/retry.py], the error mapping of [api/bookings.py] and the seat
    search of [services/bulk_booking_service.py].

    Conventions of the embedding
    - a table is a finite map from primary key to row; [seat_bookings] and
      [booking_history] are lists of rows in insertion order (their own
      primary keys are never read by the code); a row has the columns the
      modelled methods read or write (names, venue, seat location and
      [created_at] are left out, [updated_at] is kept where it is read);
    - UUIDs are natural numbers ([N]); the value drawn by [uuid4()] is an
      explicit argument of the operation that draws it;
    - [datetime.utcnow()] is an explicit argument [now], in microseconds;
      a datetime is its instant, and whether it is naive or
      timezone-aware is an argument of the definitions that compare it
      with [now] (section "Naive and timezone-aware datetimes"); the
      methods as embedded first compare naive datetimes;
    - Python integers are [Z]; an [Integer] column holds 32 bits, and an
      UPDATE of [events] that computes a value outside them fails with
      "integer out of range" ([DBAPIError]); [Numeric(10, 2)] amounts are
      [Z] cents, without the bound of ten digits;
    - a service method is a function from the store to [result Store]:
      [Raise e] stands for the exception [e] leaving the method after
      [session.rollback()], so the tables are those of the argument;
    - an exception is its class and its text; building one follows the
      signature of its [__init__] in [utils/exceptions.py];
    - CHECK, UNIQUE and PRIMARY KEY constraints of [__table_args__] are
      enforced by the statement that writes the row ([IntegrityError]),
      and so are the foreign keys of [seat_bookings]; rows of [users] are
      not modelled, so no foreign key to them is;
    - the distributed lock around [create_booking] is the argument
      [acquired] of [create_booking_locked]; logging, the cache and the
      Celery [.delay] calls do not touch the tables and are left out, and
      with them the arguments that only feed the text of a history row
      ([payment_reference], [reason]). *)

From Stdlib Require Import ZArith QArith Lia Permutation Ascii String.
From stdpp Require Import gmap strings list fin_maps pretty sorting.

Local Open Scope Z_scope.

(** ** Exceptions *)

Inductive exn_class :=
  | TypeError | NameError
  | InvalidRequestError | MultipleResultsFound | IntegrityError
  | EventNotFoundError | BookingNotFoundError
  | InsufficientCapacityError | BookingExpiredError
  | InvalidBookingStateError | ConcurrencyError
  | WaitlistError | WaitlistNotFoundError
  | AlreadyOnWaitlistError | EventNotSoldOutError
  | SeatNotAvailableError | ValidationError
  | DBAPIError | RuntimeError.

Global Instance exn_class_eq_dec : EqDecision exn_class.
Proof. solve_decision. Defined.

(** An exception object: its class and [str(e)]. *)
Record exn := Exn { exn_cls : exn_class; exn_str : string }.

Global Instance exn_eq_dec : EqDecision exn.
Proof. solve_decision. Defined.

Inductive result (A : Type) :=
  | Ok (a : A)
  | Raise (e : exn).
Arguments Ok {A} a.
Arguments Raise {A} e.

Global Instance result_ret : MRet result := λ A a, Ok a.
Global Instance result_bind : MBind result := λ A B k r,
  match r with
  | Ok a => k a
  | Raise e => Raise e
  end.
Global Instance result_throw : MThrow exn result := λ A e, Raise e.

(** [try: r except Exception as e: h e] *)
Definition try_except {A} (r : result A) (h : exn → result A) : result A :=
  match r with
  | Ok a => Ok a
  | Raise e => h e
  end.

(** Calling an exception class of [utils/exceptions.py] with the given
    positional arguments (already rendered as text).  Python binds them to
    the parameters of [__init__]; a required parameter left unbound is a
    [TypeError], raised in place of the exception under construction. *)

Definition missing_args (cls : string) (n : string) (names : string) : exn :=
  Exn TypeError
    (cls +:+ ".__init__() missing " +:+ n +:+
     " required positional argument" +:+ names).

(** [InsufficientCapacityError(requested, available, event_id=None)] *)
Definition new_InsufficientCapacityError (args : list string) : exn :=
  match args with
  | [] => missing_args "InsufficientCapacityError" "2"
            "s: 'requested' and 'available'"
  | [_] => missing_args "InsufficientCapacityError" "1" ": 'available'"
  | requested :: available :: _ =>
      Exn InsufficientCapacityError
        ("Insufficient capacity: requested " +:+ requested +:+
         ", available " +:+ available)
  end.

(** [ConcurrencyError(message, retry_after=1)] *)
Definition new_ConcurrencyError (args : list string) : exn :=
  match args with
  | [] => missing_args "ConcurrencyError" "1" ": 'message'"
  | message :: _ => Exn ConcurrencyError message
  end.

(** [BookingExpiredError(booking_id)] *)
Definition new_BookingExpiredError (args : list string) : exn :=
  match args with
  | [] => missing_args "BookingExpiredError" "1" ": 'booking_id'"
  | booking_id :: _ =>
      Exn BookingExpiredError ("Booking " +:+ booking_id +:+ " has expired")
  end.

(** [InvalidBookingStateError(booking_id, current_state, required_state)] *)
Definition new_InvalidBookingStateError (args : list string) : exn :=
  match args with
  | [] => missing_args "InvalidBookingStateError" "3"
            "s: 'booking_id', 'current_state', and 'required_state'"
  | [_] => missing_args "InvalidBookingStateError" "2"
            "s: 'current_state' and 'required_state'"
  | [_; _] => missing_args "InvalidBookingStateError" "1"
            ": 'required_state'"
  | booking_id :: current_state :: required_state :: _ =>
      Exn InvalidBookingStateError
        ("Booking " +:+ booking_id +:+ " is in " +:+ current_state +:+
         " state, required " +:+ required_state)
  end.

(** [BookingNotFoundError(booking_id)] *)
Definition new_BookingNotFoundError (args : list string) : exn :=
  match args with
  | [] => missing_args "BookingNotFoundError" "1" ": 'booking_id'"
  | booking_id :: _ =>
      Exn BookingNotFoundError ("Booking " +:+ booking_id +:+ " not found")
  end.

(** [EventNotFoundError(event_id)] *)
Definition new_EventNotFoundError (args : list string) : exn :=
  match args with
  | [] => missing_args "EventNotFoundError" "1" ": 'event_id'"
  | event_id :: _ =>
      Exn EventNotFoundError ("Event " +:+ event_id +:+ " not found")
  end.

(** [booking_service.py] raises [BookingError] without importing or
    defining it: evaluating the name is a [NameError]. *)
Definition unbound_BookingError : exn :=
  Exn NameError "name 'BookingError' is not defined".

(** The exception classes that [waitlist_service.py] defines itself take
    their message as it is. *)
Definition new_WaitlistError (message : string) : exn :=
  Exn WaitlistError message.

(** ** Text helpers for the handler of [create_booking] *)

Definition lower_ascii (c : ascii) : ascii :=
  let n := nat_of_ascii c in
  if ((65 <=? n)%nat && (n <=? 90)%nat)%bool then ascii_of_nat (n + 32) else c.

Fixpoint lower (s : string) : string :=
  match s with
  | EmptyString => EmptyString
  | String c s' => String (lower_ascii c) (lower s')
  end.

Fixpoint starts_with (p s : string) : bool :=
  match p, s with
  | EmptyString, _ => true
  | String a p', String b s' => if decide (a = b) then starts_with p' s' else false
  | String _ _, EmptyString => false
  end.

(** [p in s] for Python strings *)
Fixpoint contains (p s : string) : bool :=
  starts_with p s ||
  match s with
  | EmptyString => false
  | String _ s' => contains p s'
  end.

(** ** Data model ([models/]) *)

Abbreviation uuid := N (only parsing).
Abbreviation datetime := Z (only parsing).

(** [str(id)] of a UUID.  Only its alphabet matters below: like the
    hexadecimal text of a UUID it has no character of the words the handler
    of [create_booking] looks for. *)
Definition str_uuid (id : uuid) : string := pretty id.
Definition str_int (n : Z) : string := pretty n.

(** The values of an [Integer] column (PostgreSQL [integer], 32 bits). *)
Definition int32 (z : Z) : bool :=
  (-2147483648 <=? z) && (z <=? 2147483647).

Module BookingStatus.
Inductive t := PENDING | CONFIRMED | CANCELLED | EXPIRED.
Global Instance eq_dec : EqDecision t.
Proof. solve_decision. Defined.
Definition value (s : t) : string :=
  match s with
  | PENDING => "pending" | CONFIRMED => "confirmed"
  | CANCELLED => "cancelled" | EXPIRED => "expired"
  end.
End BookingStatus.

Module SeatStatus.
Inductive t := AVAILABLE | HELD | BOOKED | BLOCKED.
Global Instance eq_dec : EqDecision t.
Proof. solve_decision. Defined.
End SeatStatus.

Module WaitlistStatus.
Inductive t := ACTIVE | NOTIFIED | EXPIRED | CONVERTED.
Global Instance eq_dec : EqDecision t.
Proof. solve_decision. Defined.
End WaitlistStatus.

Module BookingAction.
Inductive t := CREATED | CONFIRMED | CANCELLED | EXPIRED | MODIFIED.
Global Instance eq_dec : EqDecision t.
Proof. solve_decision. Defined.
End BookingAction.

Module Event.
Record t := mk {
  event_date : datetime;
  total_capacity : Z;
  available_capacity : Z;
  price : Z;
  has_seat_selection : bool;
  version : Z;
  is_active : bool
}.
Global Instance eq_dec : EqDecision t.
Proof. solve_decision. Defined.

(** [Event.__table_args__] *)
Definition checks (e : t) : bool :=
  (0 <? total_capacity e) && (0 <=? available_capacity e) &&
  (available_capacity e <=? total_capacity e) &&
  (0 <=? price e) && (0 <? version e).

(** the first of them that the row violates *)
Definition violated_constraint (e : t) : string :=
  if total_capacity e <=? 0 then "ck_events_total_capacity_positive"
  else if available_capacity e <? 0
  then "ck_events_available_capacity_non_negative"
  else if total_capacity e <? available_capacity e
  then "ck_events_capacity_consistency"
  else if price e <? 0 then "ck_events_price_non_negative"
  else "ck_events_version_positive".

(** [available_capacity = a, version = Event.version + 1] *)
Definition with_capacity (a : Z) (e : t) : t :=
  mk (event_date e) (total_capacity e) a (price e)
     (has_seat_selection e) (version e + 1) (is_active e).

(** the row fits its three [Integer] columns *)
Definition in_range (e : t) : bool :=
  int32 (total_capacity e) && int32 (available_capacity e) &&
  int32 (version e).
End Event.

Module Seat.
Record t := mk {
  event_id : uuid;
  price : Z;
  status : SeatStatus.t
}.
Global Instance eq_dec : EqDecision t.
Proof. solve_decision. Defined.

Definition with_status (s : SeatStatus.t) (x : t) : t :=
  mk (event_id x) (price x) s.
End Seat.

Module Booking.
Record t := mk {
  user_id : uuid;
  event_id : uuid;
  quantity : Z;
  total_amount : Z;
  status : BookingStatus.t;
  expires_at : option datetime
}.
Global Instance eq_dec : EqDecision t.
Proof. solve_decision. Defined.

(** [Booking.__table_args__] *)
Definition checks (b : t) : bool :=
  (0 <? quantity b) && (0 <=? total_amount b).

Definition violated_constraint (b : t) : string :=
  if quantity b <=? 0 then "ck_bookings_quantity_positive"
  else "ck_bookings_total_amount_non_negative".

Definition is_active (b : t) : bool :=
  bool_decide (status b = BookingStatus.CONFIRMED ∨
               status b = BookingStatus.PENDING).

(** [return datetime.utcnow() > self.expires_at], for a naive
    [expires_at] ([Booking_is_expired] below has both cases) *)
Definition is_expired (now : datetime) (b : t) : bool :=
  match expires_at b with
  | None => false
  | Some t => t <? now
  end.

Definition with_status (s : BookingStatus.t) (b : t) : t :=
  mk (user_id b) (event_id b) (quantity b) (total_amount b) s (expires_at b).
Definition with_expires_at (x : option datetime) (b : t) : t :=
  mk (user_id b) (event_id b) (quantity b) (total_amount b) (status b) x.
End Booking.

Module SeatBooking.
Record t := mk { booking_id : uuid; seat_id : uuid }.
Global Instance eq_dec : EqDecision t.
Proof. solve_decision. Defined.
End SeatBooking.

(** a history row, without its [details] text *)
Module BookingHistory.
Record t := mk { booking_id : uuid; action : BookingAction.t }.
End BookingHistory.

Module Waitlist.
Record t := mk {
  user_id : uuid;
  event_id : uuid;
  requested_quantity : Z;
  position : Z;
  status : WaitlistStatus.t;
  updated_at : datetime
}.
Global Instance eq_dec : EqDecision t.
Proof. solve_decision. Defined.

(** [Waitlist.__table_args__], the CHECK constraints *)
Definition checks (w : t) : bool :=
  (0 <? requested_quantity w) && (0 <? position w).

Definition violated_constraint (w : t) : string :=
  if requested_quantity w <=? 0 then "ck_waitlist_quantity_positive"
  else "ck_waitlist_position_positive".

(** [status IN (ACTIVE, NOTIFIED)] *)
Definition non_terminal (w : t) : bool :=
  bool_decide (status w = WaitlistStatus.ACTIVE ∨
               status w = WaitlistStatus.NOTIFIED).

(** an UPDATE of the row: [onupdate=func.now()] stamps [updated_at] *)
Definition with_status (now : datetime) (s : WaitlistStatus.t) (w : t) : t :=
  mk (user_id w) (event_id w) (requested_quantity w) (position w) s now.
Definition with_position (now : datetime) (p : Z) (w : t) : t :=
  mk (user_id w) (event_id w) (requested_quantity w) p (status w) now.
End Waitlist.

Record Settings := {
  booking_hold_timeout_minutes : Z;
  max_booking_quantity : Z;
  waitlist_notification_timeout_hours : Z
}.

(** [config.py] *)
Definition default_settings : Settings :=
  {| booking_hold_timeout_minutes := 15;
     max_booking_quantity := 10;
     waitlist_notification_timeout_hours := 24 |}.

Definition minutes (n : Z) : Z := n * 60 * 1000000.
Definition hours (n : Z) : Z := n * 3600 * 1000000.

Record Store := {
  events : gmap N Event.t;
  seats : gmap N Seat.t;
  bookings : gmap N Booking.t;
  seat_bookings : list SeatBooking.t;
  booking_history : list BookingHistory.t;
  waitlist : gmap N Waitlist.t
}.

Definition set_events (x : gmap N Event.t) (st : Store) : Store :=
  {| events := x; seats := seats st; bookings := bookings st;
     seat_bookings := seat_bookings st;
     booking_history := booking_history st; waitlist := waitlist st |}.
Definition set_seats (x : gmap N Seat.t) (st : Store) : Store :=
  {| events := events st; seats := x; bookings := bookings st;
     seat_bookings := seat_bookings st;
     booking_history := booking_history st; waitlist := waitlist st |}.
Definition set_bookings (x : gmap N Booking.t) (st : Store) : Store :=
  {| events := events st; seats := seats st; bookings := x;
     seat_bookings := seat_bookings st;
     booking_history := booking_history st; waitlist := waitlist st |}.
Definition set_seat_bookings (x : list SeatBooking.t) (st : Store) : Store :=
  {| events := events st; seats := seats st; bookings := bookings st;
     seat_bookings := x;
     booking_history := booking_history st; waitlist := waitlist st |}.
Definition set_booking_history (x : list BookingHistory.t) (st : Store) : Store :=
  {| events := events st; seats := seats st; bookings := bookings st;
     seat_bookings := seat_bookings st;
     booking_history := x; waitlist := waitlist st |}.
Definition set_waitlist (x : gmap N Waitlist.t) (st : Store) : Store :=
  {| events := events st; seats := seats st; bookings := bookings st;
     seat_bookings := seat_bookings st;
     booking_history := booking_history st; waitlist := x |}.

(** [str(e)] of an [IntegrityError]: the driver's message, which names
    the violated constraint, then the statement. *)
Definition integrity_error (constraint statement : string) : exn :=
  Exn IntegrityError
    ("violates constraint " +:+ constraint +:+ " [SQL: " +:+ statement +:+ "]").

(** [str(e)] of the [DBAPIError] that wraps the driver's
    [NumericValueOutOfRangeError]. *)
Definition out_of_range_error (statement : string) : exn :=
  Exn DBAPIError ("integer out of range [SQL: " +:+ statement +:+ "]").

Definition update_events_sql : string :=
  "UPDATE events SET available_capacity=..., version=..., updated_at=now() WHERE ...".
Definition insert_bookings_sql : string :=
  "INSERT INTO bookings (user_id, event_id, quantity, total_amount, status, expires_at, id) VALUES (...)".
Definition insert_seat_bookings_sql : string :=
  "INSERT INTO seat_bookings (booking_id, seat_id, id) VALUES (...)".
Definition insert_waitlist_sql : string :=
  "INSERT INTO waitlist (user_id, event_id, requested_quantity, position, status, id) VALUES (...)".
Definition update_waitlist_sql : string :=
  "UPDATE waitlist SET ..., updated_at=now() WHERE ...".

(** ** Statements on the tables *)

(** [UPDATE events SET ... WHERE id = :event_id AND cond]; the second
    component is [result.rowcount].  The SET expressions are computed in
    32-bit arithmetic before the CHECK constraints see the new row: a
    result outside the column's range ends the statement with "integer out
    of range". *)
Definition update_event_where (event_id : uuid) (cond : Event.t → bool)
    (values : Event.t → Event.t) (st : Store) : result (Store * Z) :=
  match events st !! event_id with
  | Some e =>
      if cond e then
        if negb (Event.in_range (values e))
        then Raise (out_of_range_error update_events_sql)
        else if Event.checks (values e)
        then Ok (set_events (<[event_id := values e]> (events st)) st, 1)
        else Raise (integrity_error
                      (Event.violated_constraint (values e))
                      update_events_sql)
      else Ok (st, 0)
  | None => Ok (st, 0)
  end.

(** [UPDATE seats SET status = :s WHERE cond] *)
Definition update_seats_where (cond : uuid → Seat.t → bool)
    (s : SeatStatus.t) (st : Store) : Store :=
  set_seats
    (map_imap (λ id x, Some (if cond id x then Seat.with_status s x else x))
              (seats st)) st.

(** [SELECT ... FROM seats WHERE cond] *)
Definition select_seats (cond : uuid → Seat.t → bool) (st : Store)
    : list (uuid * Seat.t) :=
  filter (λ kv, cond kv.1 kv.2 = true) (map_to_list (seats st)).

Definition in_ (id : uuid) (ids : list uuid) : bool := bool_decide (id ∈ ids).

(** [booking.seat_bookings]: the rows of [seat_bookings] of the booking *)
Definition seat_bookings_of (booking_id : uuid) (st : Store)
    : list SeatBooking.t :=
  filter (λ sb, SeatBooking.booking_id sb = booking_id) (seat_bookings st).

(** [session.add(Booking(...))] then [flush()] *)
Definition insert_booking (id : uuid) (b : Booking.t) (st : Store)
    : result Store :=
  match bookings st !! id with
  | Some _ => Raise (integrity_error "bookings_pkey" insert_bookings_sql)
  | None =>
      if Booking.checks b
      then Ok (set_bookings (<[id := b]> (bookings st)) st)
      else Raise (integrity_error (Booking.violated_constraint b)
                    insert_bookings_sql)
  end.

(** [session.add(SeatBooking(...))] for each row, flushed together.  A
    pair of booking and seat occurs once
    ([uq_seat_bookings_booking_seat]), and the two columns are foreign
    keys to [bookings] and to [seats]. *)
Definition insert_seat_bookings (rows : list SeatBooking.t) (st : Store)
    : result Store :=
  if bool_decide (NoDup rows ∧ Forall (λ r, r ∉ seat_bookings st) rows)
  then
    if bool_decide
         (Forall (λ r, is_Some (bookings st !! SeatBooking.booking_id r))
            rows)
    then
      if bool_decide
           (Forall (λ r, is_Some (seats st !! SeatBooking.seat_id r)) rows)
      then Ok (set_seat_bookings (seat_bookings st ++ rows) st)
      else Raise (integrity_error "seat_bookings_seat_id_fkey"
                    insert_seat_bookings_sql)
    else Raise (integrity_error "seat_bookings_booking_id_fkey"
                  insert_seat_bookings_sql)
  else Raise (integrity_error "uq_seat_bookings_booking_seat"
                insert_seat_bookings_sql).

(** [_create_booking_history] *)
Definition _create_booking_history (booking_id : uuid)
    (action : BookingAction.t) (st : Store) : Store :=
  set_booking_history
    (booking_history st ++ [BookingHistory.mk booking_id action]) st.

(** ** [BookingService] ([services/booking_service.py]) *)

(** An ORM object: the primary key and the column values as loaded. *)

Definition _get_event_with_lock (event_id : uuid) (st : Store)
    : result (uuid * Event.t) :=
  match events st !! event_id with
  | None => Raise (new_EventNotFoundError [str_uuid event_id])
  | Some e =>
      if Event.is_active e then Ok (event_id, e)
      else Raise unbound_BookingError
  end.

Definition _validate_seat_availability (seat_ids : list uuid) (st : Store)
    : result unit :=
  let available_seats :=
    select_seats (λ id s, in_ id seat_ids &&
                    bool_decide (Seat.status s = SeatStatus.AVAILABLE)) st in
  if bool_decide (length available_seats ≠ length seat_ids)
  then Raise (new_InsufficientCapacityError ["Seats not available: {...}"])
  else Ok ().

(** For a naive [event_date]; [_validate_booking_request_tz] below has
    both cases. *)
Definition _validate_booking_request (settings : Settings) (now : datetime)
    (event : uuid * Event.t) (quantity : Z) (seat_ids : option (list uuid))
    (st : Store) : result unit :=
  if quantity <=? 0 then Raise unbound_BookingError
  else if max_booking_quantity settings <? quantity
  then Raise unbound_BookingError
  else if Event.event_date event.2 <? now then Raise unbound_BookingError
  else
    match seat_ids with
    | Some ((_ :: _) as ids) =>
        if bool_decide (Z.of_nat (length ids) ≠ quantity)
        then Raise unbound_BookingError
        else if negb (Event.has_seat_selection event.2)
        then Raise unbound_BookingError
        else _validate_seat_availability ids st
    | _ =>
        if Event.available_capacity event.2 <? quantity
        then Raise (new_InsufficientCapacityError
               ["Insufficient capacity. Available: " +:+
                str_int (Event.available_capacity event.2) +:+
                ", Requested: " +:+ str_int quantity])
        else Ok ()
    end.

Definition _calculate_total_amount (event : uuid * Event.t) (quantity : Z)
    (seat_ids : option (list uuid)) (st : Store) : Z :=
  match seat_ids with
  | Some ((_ :: _) as ids) =>
      foldr Z.add 0
        ((λ kv, Seat.price kv.2) <$> select_seats (λ id _, in_ id ids) st)
  | _ => Event.price event.2 * quantity
  end.

Definition _reserve_specific_seats (booking_id : uuid) (seat_ids : list uuid)
    (st : Store) : result Store :=
  let st1 :=
    update_seats_where
      (λ id s, in_ id seat_ids &&
               bool_decide (Seat.status s = SeatStatus.AVAILABLE))
      SeatStatus.HELD st in
  insert_seat_bookings (SeatBooking.mk booking_id <$> seat_ids) st1.

(** [event] is the object read earlier in the transaction; the row it
    came from may have moved on since. *)
Definition _update_event_capacity (event : uuid * Event.t) (quantity : Z)
    (st : Store) : result Store :=
  '(st1, rowcount) ←
    update_event_where event.1
      (λ e, (Event.version e =? Event.version event.2) &&
            (quantity <=? Event.available_capacity e))
      (λ e, Event.with_capacity (Event.available_capacity e - quantity) e)
      st;
  if rowcount =? 0 then
    (* session.refresh(event) *)
    match events st1 !! event.1 with
    | None => Raise (Exn InvalidRequestError "Could not refresh instance")
    | Some e =>
        if Event.available_capacity e <? quantity
        then Raise (new_InsufficientCapacityError ["Insufficient capacity"])
        else Raise (new_ConcurrencyError
               ["Event was modified by another transaction"])
    end
  else Ok st1.

Definition _get_booking_with_relations (booking_id : uuid) (st : Store)
    : result (uuid * Booking.t) :=
  match bookings st !! booking_id with
  | None =>
      Raise (new_BookingNotFoundError
               ["Booking " +:+ str_uuid booking_id +:+ " not found"])
  | Some b => Ok (booking_id, b)
  end.

Definition _validate_booking_confirmation (now : datetime)
    (booking : uuid * Booking.t) : result unit :=
  if bool_decide (Booking.status booking.2 ≠ BookingStatus.PENDING)
  then Raise (new_InvalidBookingStateError
         ["Cannot confirm booking in " +:+
          BookingStatus.value (Booking.status booking.2) +:+ " state"])
  else if Booking.is_expired now booking.2
  then Raise (new_BookingExpiredError ["Cannot confirm expired booking"])
  else Ok ().

Definition _validate_booking_cancellation (booking : uuid * Booking.t)
    : result unit :=
  if bool_decide (Booking.status booking.2 ≠ BookingStatus.PENDING ∧
                  Booking.status booking.2 ≠ BookingStatus.CONFIRMED)
  then Raise (new_InvalidBookingStateError
         ["Cannot cancel booking in " +:+
          BookingStatus.value (Booking.status booking.2) +:+ " state"])
  else Ok ().

Definition _release_booking_capacity (booking : uuid * Booking.t) (st : Store)
    : result Store :=
  match seat_bookings_of booking.1 st with
  | (_ :: _) as sbs =>
      let seat_ids := SeatBooking.seat_id <$> sbs in
      Ok (update_seats_where (λ id _, in_ id seat_ids)
            SeatStatus.AVAILABLE st)
  | [] =>
      '(st1, _) ←
        update_event_where (Booking.event_id booking.2) (λ _, true)
          (λ e, Event.with_capacity
                  (Event.available_capacity e + Booking.quantity booking.2) e)
          st;
      Ok st1
  end.

Definition update_booking (booking_id : uuid) (b : Booking.t) (st : Store)
    : Store :=
  set_bookings (<[booking_id := b]> (bookings st)) st.

(** The body of [async with self.session.begin()] in [create_booking];
    [new_id] is the [uuid4()] of the booking. *)
Definition create_booking_tx (settings : Settings) (now : datetime)
    (new_id user_id event_id : uuid) (quantity : Z)
    (seat_ids : option (list uuid)) (st : Store) : result Store :=
  event ← _get_event_with_lock event_id st;
  _validate_booking_request settings now event quantity seat_ids st;;
  let total_amount := _calculate_total_amount event quantity seat_ids st in
  let expires_at := now + minutes (booking_hold_timeout_minutes settings) in
  let booking :=
    Booking.mk user_id event_id quantity total_amount
      BookingStatus.PENDING (Some expires_at) in
  st1 ← insert_booking new_id booking st;
  st2 ← match seat_ids with
        | Some ((_ :: _) as ids) => _reserve_specific_seats new_id ids st1
        | _ => _update_event_capacity event quantity st1
        end;
  Ok (_create_booking_history new_id BookingAction.CREATED st2).

(** [except Exception as e:] of [create_booking] *)
Definition create_booking_except (e : exn) : result Store :=
  if contains "version" (lower (exn_str e)) ||
     contains "concurrent" (lower (exn_str e))
  then Raise (new_ConcurrencyError
         ["Event was modified by another transaction. Please try again."])
  else if bool_decide (exn_cls e = IntegrityError)
  then Raise unbound_BookingError
  else Raise unbound_BookingError.

(** One run of the [try] statement of the method, on an event whose
    [event_date] is naive.  The lock around the [try] and an aware
    [event_date] are in [create_booking_locked] below, the decorator
    [retry_on_concurrency_error] in [retry_on_concurrency_error] and
    [BookingService_create_booking]. *)
Definition create_booking (settings : Settings) (now : datetime)
    (new_id user_id event_id : uuid) (quantity : Z)
    (seat_ids : option (list uuid)) (st : Store) : result Store :=
  try_except
    (create_booking_tx settings now new_id user_id event_id quantity
       seat_ids st)
    create_booking_except.

(** On a booking whose [expires_at] is naive; [confirm_booking_tz] below
    has both cases. *)
Definition confirm_booking (now : datetime) (booking_id : uuid) (st : Store)
    : result Store :=
  booking ← _get_booking_with_relations booking_id st;
  _validate_booking_confirmation now booking;;
  let b1 := Booking.with_status BookingStatus.CONFIRMED booking.2 in
  let b2 := Booking.with_expires_at None b1 in
  Ok (_create_booking_history booking_id BookingAction.CONFIRMED
        (update_booking booking_id b2 st)).

Definition cancel_booking (booking_id : uuid) (st : Store) : result Store :=
  booking ← _get_booking_with_relations booking_id st;
  _validate_booking_cancellation booking;;
  st1 ← _release_booking_capacity booking st;
  let b1 := Booking.with_status BookingStatus.CANCELLED booking.2 in
  let b2 := Booking.with_expires_at None b1 in
  Ok (_create_booking_history booking_id BookingAction.CANCELLED
        (update_booking booking_id b2 st1)).

Definition expire_booking (booking_id : uuid) (st : Store) : result Store :=
  booking ← _get_booking_with_relations booking_id st;
  if bool_decide (Booking.status booking.2 ≠ BookingStatus.PENDING)
  then Ok st
  else
    st1 ← _release_booking_capacity booking st;
    let b1 := Booking.with_status BookingStatus.EXPIRED booking.2 in
    Ok (_create_booking_history booking_id BookingAction.EXPIRED
          (update_booking booking_id b1 st1)).

(** ** [SeatService] ([services/seat_service.py]) *)

(** [SeatNotAvailableError(seat_id, current_status)] *)
Definition new_SeatNotAvailableError (args : list string) : exn :=
  match args with
  | [] => missing_args "SeatNotAvailableError" "2"
            "s: 'seat_id' and 'current_status'"
  | [_] => missing_args "SeatNotAvailableError" "1" ": 'current_status'"
  | seat_id :: current_status :: _ =>
      Exn SeatNotAvailableError
        ("Seat " +:+ seat_id +:+ " is not available (status: " +:+
         current_status +:+ ")")
  end.

Definition book_seats (seat_ids : list uuid) (booking_id : uuid) (st : Store)
    : result Store :=
  let seats := select_seats (λ id _, in_ id seat_ids) st in
  let unbookable_seats :=
    filter (λ kv, Seat.status kv.2 ≠ SeatStatus.AVAILABLE ∧
                  Seat.status kv.2 ≠ SeatStatus.HELD) seats in
  match unbookable_seats with
  | _ :: _ =>
      Raise (new_SeatNotAvailableError ["Cannot book seats. Unavailable: ..."])
  | [] =>
      let st1 :=
        update_seats_where (λ id _, in_ id seat_ids) SeatStatus.BOOKED st in
      try_except
        (insert_seat_bookings
           ((λ kv, SeatBooking.mk booking_id kv.1) <$> seats) st1)
        (λ e, Raise (Exn ValidationError
                       ("Failed to book seats: " +:+ exn_str e)))
  end.

Definition release_booked_seats (booking_id : uuid) (st : Store)
    : result Store :=
  let seat_ids := SeatBooking.seat_id <$> seat_bookings_of booking_id st in
  match seat_ids with
  | _ :: _ =>
      let st1 :=
        update_seats_where (λ id _, in_ id seat_ids)
          SeatStatus.AVAILABLE st in
      (* "Delete seat booking records": the statement executed is
         [select(SeatBooking).where(...)], which writes nothing *)
      let _ := seat_bookings_of booking_id st1 in
      Ok st1
  | [] => Ok st
  end.

(** ** [WaitlistService] ([services/waitlist_service.py]) *)

(** [SELECT ... FROM waitlist WHERE cond] *)
Definition waitlist_rows (cond : Waitlist.t → bool) (st : Store)
    : list (uuid * Waitlist.t) :=
  filter (λ kv, cond kv.2 = true) (map_to_list (waitlist st)).

(** [result.scalar_one_or_none()] *)
Definition scalar_one_or_none {A} (rows : list A) : result (option A) :=
  match rows with
  | [] => Ok None
  | [x] => Ok (Some x)
  | _ => Raise (Exn MultipleResultsFound
           "Multiple rows were found when one or none was required")
  end.

(** [x or d] for an optional integer *)
Definition py_or (x : option Z) (d : Z) : Z :=
  match x with
  | Some v => if v =? 0 then d else v
  | None => d
  end.

(** [INSERT INTO waitlist]: primary key, [uq_waitlist_user_event] and the
    CHECK constraints *)
Definition insert_waitlist (id : uuid) (w : Waitlist.t) (st : Store)
    : result Store :=
  match waitlist st !! id with
  | Some _ => Raise (integrity_error "waitlist_pkey" insert_waitlist_sql)
  | None =>
      match waitlist_rows
              (λ x, bool_decide (Waitlist.user_id x = Waitlist.user_id w) &&
                    bool_decide (Waitlist.event_id x = Waitlist.event_id w))
              st with
      | _ :: _ =>
          Raise (integrity_error "uq_waitlist_user_event" insert_waitlist_sql)
      | [] =>
          if Waitlist.checks w
          then Ok (set_waitlist (<[id := w]> (waitlist st)) st)
          else Raise (integrity_error (Waitlist.violated_constraint w)
                        insert_waitlist_sql)
      end
  end.

(** The flush of a modified ORM object: [UPDATE waitlist ... WHERE id = :id] *)
Definition write_waitlist (id : uuid) (w : Waitlist.t) (st : Store)
    : result Store :=
  if Waitlist.checks w
  then Ok (set_waitlist (<[id := w]> (waitlist st)) st)
  else Raise (integrity_error (Waitlist.violated_constraint w)
                update_waitlist_sql).

(** [UPDATE waitlist SET ... WHERE cond] *)
Definition update_waitlist_where (cond : Waitlist.t → bool)
    (values : Waitlist.t → Waitlist.t) (st : Store) : result Store :=
  if bool_decide
       (map_Forall (λ _ w, cond w = true → Waitlist.checks (values w) = true)
                   (waitlist st))
  then Ok (set_waitlist ((λ w, if cond w then values w else w) <$> waitlist st)
             st)
  else Raise (integrity_error "ck_waitlist_position_positive"
                update_waitlist_sql).

Definition _get_event (event_id : uuid) (st : Store)
    : result (uuid * Event.t) :=
  match events st !! event_id with
  | None =>
      Raise (new_WaitlistError ("Event " +:+ str_uuid event_id +:+ " not found"))
  | Some e =>
      if Event.is_active e then Ok (event_id, e)
      else Raise (new_WaitlistError "Event is not active")
  end.

Definition _get_user_waitlist_entry (user_id event_id : uuid) (st : Store)
    : result (option (uuid * Waitlist.t)) :=
  scalar_one_or_none
    (waitlist_rows
       (λ w, bool_decide (Waitlist.user_id w = user_id) &&
             bool_decide (Waitlist.event_id w = event_id) &&
             Waitlist.non_terminal w) st).

Definition _get_waitlist_entry (waitlist_id : uuid) (st : Store)
    : result (uuid * Waitlist.t) :=
  match waitlist st !! waitlist_id with
  | None =>
      Raise (Exn WaitlistNotFoundError
               ("Waitlist entry " +:+ str_uuid waitlist_id +:+ " not found"))
  | Some w => Ok (waitlist_id, w)
  end.

(** [SELECT max(position) FROM waitlist WHERE event_id = :event_id]:
    every row of the event, whatever its status *)
Definition max_position (event_id : uuid) (st : Store) : option Z :=
  foldr (λ kv acc,
           Some match acc with
                | None => Waitlist.position kv.2
                | Some m => Z.max (Waitlist.position kv.2) m
                end)
        None
        (waitlist_rows (λ w, bool_decide (Waitlist.event_id w = event_id)) st).

Definition _get_next_waitlist_position (event_id : uuid) (st : Store) : Z :=
  py_or (max_position event_id st) 0 + 1.

Definition by_position (a b : uuid * Waitlist.t) : Prop :=
  Waitlist.position a.2 ≤ Waitlist.position b.2.

Global Instance by_position_dec a b : Decision (by_position a b).
Proof. unfold by_position. apply _. Defined.

(** [ORDER BY position ASC]; rows of equal position come in the order of
    the table scan, which the database leaves open *)
Definition _get_active_waitlist_entries (event_id : uuid) (st : Store)
    : list (uuid * Waitlist.t) :=
  merge_sort by_position
    (waitlist_rows
       (λ w, bool_decide (Waitlist.event_id w = event_id) &&
             bool_decide (Waitlist.status w = WaitlistStatus.ACTIVE)) st).

Definition _reorder_waitlist_after_removal (now : datetime)
    (event_id : uuid) (removed_position : Z) (st : Store) : result Store :=
  update_waitlist_where
    (λ w, bool_decide (Waitlist.event_id w = event_id) &&
          (removed_position <? Waitlist.position w) &&
          Waitlist.non_terminal w)
    (λ w, Waitlist.with_position now (Waitlist.position w - 1) w)
    st.

(** [except IntegrityError as e: ... except Exception as e: ... raise] of
    [join_waitlist] *)
Definition join_waitlist_except (e : exn) : result Store :=
  if bool_decide (exn_cls e = IntegrityError) then
    if contains "uq_waitlist_user_event" (exn_str e)
    then Raise (Exn AlreadyOnWaitlistError
                  "User is already on waitlist for this event")
    else Raise (new_WaitlistError
                  "Failed to join waitlist due to data conflict")
  else Raise e.

(** Both branches of [if self.session.in_transaction()] run the same
    statements; [new_id] is the primary key given to the new row. *)
Definition join_waitlist (now : datetime) (new_id user_id event_id : uuid)
    (requested_quantity : Z) (st : Store) : result Store :=
  try_except
    (event ← _get_event event_id st;
     if requested_quantity <=? Event.available_capacity event.2
     then Raise (Exn EventNotSoldOutError
                   "Event has available capacity. Please book directly.")
     else
       existing_entry ← _get_user_waitlist_entry user_id event_id st;
       match existing_entry with
       | Some _ =>
           Raise (Exn AlreadyOnWaitlistError
                    "User is already on waitlist for this event")
       | None =>
           let next_position := _get_next_waitlist_position event_id st in
           insert_waitlist new_id
             (Waitlist.mk user_id event_id requested_quantity next_position
                WaitlistStatus.ACTIVE now) st
       end)
    join_waitlist_except.

Definition leave_waitlist (now : datetime) (user_id event_id : uuid)
    (st : Store) : result (Store * bool) :=
  try_except
    (waitlist_entry ← _get_user_waitlist_entry user_id event_id st;
     match waitlist_entry with
     | None => Ok (st, false)
     | Some (id, w) =>
         let removed_position := Waitlist.position w in
         let st1 := set_waitlist (delete id (waitlist st)) st in
         st2 ← _reorder_waitlist_after_removal now event_id
                 removed_position st1;
         Ok (st2, true)
     end)
    (λ e, Raise (new_WaitlistError
                   ("Failed to leave waitlist: " +:+ exn_str e))).

(** The [for entry in waitlist_entries] loop of [notify_waitlist]: the
    entries it marks, in the order it meets them. *)
Fixpoint notify_loop (waitlist_entries : list (uuid * Waitlist.t))
    (remaining_quantity : Z) : list (uuid * Waitlist.t) :=
  match waitlist_entries with
  | [] => []
  | entry :: rest =>
      if remaining_quantity <=? 0 then []
      else if Waitlist.requested_quantity entry.2 <=? remaining_quantity
      then entry ::
           notify_loop rest
             (remaining_quantity - Waitlist.requested_quantity entry.2)
      else notify_loop rest remaining_quantity
  end.

Definition mark_notified (now : datetime) (kv : uuid * Waitlist.t)
    : uuid * Waitlist.t :=
  (kv.1, Waitlist.with_status now WaitlistStatus.NOTIFIED kv.2).

Definition notify_waitlist (now : datetime) (event_id : uuid)
    (available_quantity : Z) (st : Store)
    : result (Store * list (uuid * Waitlist.t)) :=
  let waitlist_entries := _get_active_waitlist_entries event_id st in
  let notified_entries :=
    mark_notified now <$> notify_loop waitlist_entries available_quantity in
  Ok (set_waitlist
        (foldl (λ wl kv, <[kv.1 := kv.2]> wl) (waitlist st) notified_entries)
        st,
      notified_entries).

Definition convert_waitlist_to_booking (now : datetime)
    (waitlist_id booking_id : uuid) (st : Store) : result Store :=
  waitlist_entry ← _get_waitlist_entry waitlist_id st;
  st1 ← write_waitlist waitlist_id
          (Waitlist.with_status now WaitlistStatus.CONVERTED waitlist_entry.2)
          st;
  _reorder_waitlist_after_removal now
    (Waitlist.event_id waitlist_entry.2)
    (Waitlist.position waitlist_entry.2) st1.

(** One turn of [for entry in expired_entries]: the status change is
    flushed before the query for the next position, the new position and
    the status ACTIVE after it. *)
Definition requeue_entry (now : datetime) (st : result Store)
    (kv : uuid * Waitlist.t) : result Store :=
  st0 ← st;
  match waitlist st0 !! kv.1 with
  | None => Ok st0
  | Some w =>
      st1 ← write_waitlist kv.1
              (Waitlist.with_status now WaitlistStatus.EXPIRED w) st0;
      let new_position :=
        _get_next_waitlist_position (Waitlist.event_id w) st1 in
      write_waitlist kv.1
        (Waitlist.with_status now WaitlistStatus.ACTIVE
           (Waitlist.with_position now new_position w)) st1
  end.

Definition expire_waitlist_notifications (settings : Settings)
    (now : datetime) (st : Store) : result (Store * list uuid) :=
  try_except
    (let expiration_time :=
       now - hours (waitlist_notification_timeout_hours settings) in
     let expired_entries :=
       waitlist_rows
         (λ w, bool_decide (Waitlist.status w = WaitlistStatus.NOTIFIED) &&
               (Waitlist.updated_at w <? expiration_time)) st in
     st1 ← foldl (requeue_entry now) (Ok st) expired_entries;
     Ok (st1, expired_entries.*1))
    (λ e, Raise (new_WaitlistError
                   ("Failed to expire notifications: " +:+ exn_str e))).

(** ** [DynamicPricingService._calculate_waitlist_multiplier] *)

(** [waitlist_size / d] is a binary64 quotient of two integers.  For
    [Integer] columns its comparison with [2.0], [1.0] and [0.5] has the
    outcome of the comparison of the exact quotient, which is what [Q]
    computes here; the results stand for the literals [1.3], [1.15], [1.05]
    and [1.0]. *)
Definition pressure_tier (waitlist_pressure : Q) : Q :=
  if Qle_bool 2 waitlist_pressure then 13 # 10
  else if Qle_bool 1 waitlist_pressure then 115 # 100
  else if Qle_bool (1 # 2) waitlist_pressure then 105 # 100
  else 1.

Definition _calculate_waitlist_multiplier (event : uuid * Event.t)
    (st : Store) : Q :=
  let waitlist_size :=
    Z.of_nat (length (waitlist_rows
                (λ w, bool_decide (Waitlist.event_id w = event.1)) st)) in
  if waitlist_size =? 0 then 1
  else
    let waitlist_pressure :=
      if 0 <? Event.available_capacity event.2
      then (inject_Z waitlist_size / inject_Z (Event.available_capacity event.2))%Q
      else (inject_Z waitlist_size / 10)%Q in
    pressure_tier waitlist_pressure.

(** The factor as section 4.8 of the specification words it:
    [pressure = waitlistSize / max(availableCapacity, 10)]. *)
Definition waitlist_factor_spec (waitlist_size available_capacity : Z) : Q :=
  pressure_tier
    (inject_Z waitlist_size / inject_Z (Z.max available_capacity 10))%Q.

(** ** Further methods of [BookingService] *)


(** ** [utils/retry.py] *)

(** [raise last_exception]; with no attempt made it still holds [None],
    and raising [None] is a [TypeError]. *)
Definition raise_last {A} (last_exception : option exn) : result A :=
  match last_exception with
  | Some e => Raise e
  | None => Raise (Exn TypeError "exceptions must derive from BaseException")
  end.

(** The [for attempt in range(config.max_attempts)] loop of [retry_async],
    by the number of attempts still to make.  [func] is the awaited call:
    it runs in a state of type [W] (tables, other sessions, clock) and
    leaves one; [retryable] and [non_retryable] are the [isinstance] tests
    against the two tuples of classes.  The [break] of the last attempt
    and the end of the range lead to the same [raise]; the sleep between
    two attempts does not show in the outcome. *)
Fixpoint retry_loop {W A} (func : W → result A * W)
    (retryable non_retryable : exn → bool)
    (remaining : nat) (last_exception : option exn) (s : W)
    : result A * W :=
  match remaining with
  | O => (raise_last last_exception, s)
  | S remaining' =>
      match func s with
      | (Ok a, s') => (Ok a, s')
      | (Raise e, s') =>
          if non_retryable e then (Raise e, s')
          else if retryable e
          then retry_loop func retryable non_retryable remaining' (Some e) s'
          else (Raise e, s')
      end
  end.

Definition retry_async {W A} (func : W → result A * W) (max_attempts : Z)
    (retryable non_retryable : exn → bool) (s : W) : result A * W :=
  retry_loop func retryable non_retryable (Z.to_nat max_attempts) None s.

(** [retryable_exceptions=(ConcurrencyError, asyncio.TimeoutError)] and
    [non_retryable_exceptions=(ValueError, TypeError)], on the classes of
    [exn_class] *)
Definition concurrency_retryable (e : exn) : bool :=
  bool_decide (exn_cls e = ConcurrencyError).
Definition concurrency_non_retryable (e : exn) : bool :=
  bool_decide (exn_cls e = TypeError).

(** *** Binding the arguments of a call

    A function declared [def f(p1, ..., pn, *args, **kwargs)], of whose
    parameters the first [fn_required] have no default. *)
Record signature := {
  fn_name : string;
  fn_params : list string;
  fn_required : nat
}.

(** What a call binds: the parameters filled, [*args] and [**kwargs]. *)
Record binding (V : Type) := {
  bound_params : list (string * V);
  bound_args : list V;
  bound_kwargs : list (string * V)
}.
Arguments bound_params {V} _.
Arguments bound_args {V} _.
Arguments bound_kwargs {V} _.

Definition multiple_values (f : signature) (what name : string) : exn :=
  Exn TypeError
    (fn_name f +:+ "() got multiple values for " +:+ what +:+
     " '" +:+ name +:+ "'").

(** The keyword arguments of a call: those written out, then the unpacked
    [**kwargs], which may not repeat one of them. *)
Definition call_keywords {V} (f : signature)
    (written kwargs : list (string * V)) : result (list (string * V)) :=
  match list_find (λ kv, kv.1 ∈ written.*1) kwargs with
  | Some (_, kv) => Raise (multiple_values f "keyword argument" kv.1)
  | None => Ok (written ++ kwargs)
  end.

(** The keyword arguments in order: one that names a parameter must find
    it still free; the others are collected in [**kwargs]. *)
Fixpoint bind_keywords {V} (f : signature) (keywords : list (string * V))
    (filled kwargs : list (string * V))
    : result (list (string * V) * list (string * V)) :=
  match keywords with
  | [] => Ok (filled, kwargs)
  | kv :: rest =>
      if bool_decide (kv.1 ∈ fn_params f) then
        if bool_decide (kv.1 ∈ filled.*1)
        then Raise (multiple_values f "argument" kv.1)
        else bind_keywords f rest (filled ++ [kv]) kwargs
      else bind_keywords f rest filled (kwargs ++ [kv])
  end.

Definition quoted (name : string) : string := "'" +:+ name +:+ "'".

Fixpoint names_tail (names : list string) : string :=
  match names with
  | [] => ""
  | [z] => ", and " +:+ quoted z
  | a :: rest => ", " +:+ quoted a +:+ names_tail rest
  end.

(** ['a'], ['a' and 'b'], ['a', 'b', and 'c'] *)
Definition names_text (names : list string) : string :=
  match names with
  | [] => ""
  | [a] => quoted a
  | [a; b] => quoted a +:+ " and " +:+ quoted b
  | a :: rest => quoted a +:+ names_tail rest
  end.

Definition missing_positional (f : signature) (missing : list string)
    : exn :=
  Exn TypeError
    (fn_name f +:+ "() missing " +:+ pretty (length missing) +:+
     " required positional argument" +:+
     (if bool_decide (length missing = 1%nat) then ": " else "s: ") +:+
     names_text missing).

(** The positional arguments fill the parameters in order and their
    surplus is [*args]; then come the keyword arguments; at the end every
    parameter without default must be filled. *)
Definition bind_call {V} (f : signature) (positional : list V)
    (keywords : list (string * V)) : result (binding V) :=
  let filled := zip (fn_params f) positional in
  let surplus := drop (length (fn_params f)) positional in
  '(filled, kwargs) ← bind_keywords f keywords filled [];
  match filter (λ p, p ∉ filled.*1) (take (fn_required f) (fn_params f)) with
  | [] => Ok {| bound_params := filled; bound_args := surplus;
                bound_kwargs := kwargs |}
  | missing => Raise (missing_positional f missing)
  end.

(** [async def retry_async(func, config, retryable_exceptions=(Exception,),
    non_retryable_exceptions=(), *args, **kwargs)] *)
Definition retry_async_signature : signature :=
  {| fn_name := "retry_async";
     fn_params := ["func"; "config"; "retryable_exceptions";
                   "non_retryable_exceptions"];
     fn_required := 2 |}.

(** What the wrapper of a retry decorator passes to [retry_async]: the
    decorated function, the [RetryConfig], a tuple of exception classes
    (its [isinstance] test), or an argument of the call to the wrapper. *)
Inductive passed (V : Type) :=
  | the_func
  | the_config
  | classes (test : exn → bool)
  | argument (v : V).
Arguments the_func {V}.
Arguments the_config {V}.
Arguments classes {V} test.
Arguments argument {V} v.

(** The tuple of classes bound to a parameter, or its default. *)
Definition bound_classes {V} (name : string) (default : exn → bool)
    (b : binding (passed V)) : exn → bool :=
  match list_find (λ kv, kv.1 = name) (bound_params b) with
  | Some (_, (_, classes test)) => test
  | _ => default
  end.

(** The wrapper that [retry_on_concurrency_error] puts around a function.
    It takes [*args] and [**kwargs] and returns
    [retry_async(func, config, retryable_exceptions=...,
    non_retryable_exceptions=..., *args, **kwargs)]: the positional
    arguments of that call are [func], [config] and then [args], its
    keywords the two tuples and then [kwargs].  [retry_async] awaits
    [func] on the [*args] and [**kwargs] that the call bound. *)
Definition retry_on_concurrency_error {V W A} (max_attempts : Z)
    (func : list (passed V) → list (string * passed V) → W → result A * W)
    (args : list V) (kwargs : list (string * V)) (s : W)
    : result A * W :=
  let call :=
    keywords ←
      call_keywords retry_async_signature
        [("retryable_exceptions", classes concurrency_retryable);
         ("non_retryable_exceptions", classes concurrency_non_retryable)]
        (prod_map id argument <$> kwargs);
    bind_call retry_async_signature
      ([the_func; the_config] ++ (argument <$> args)) keywords in
  match call with
  | Raise e => (Raise e, s)
  | Ok b =>
      retry_async (func (bound_args b) (bound_kwargs b)) max_attempts
        (bound_classes "retryable_exceptions" (λ _, true) b)
        (bound_classes "non_retryable_exceptions" (λ _, false) b) s
  end.

(** A method as an awaited call on the tables: an exception leaves them
    as they were. *)
Definition as_call (m : Store → result Store) (st : Store)
    : result Store * Store :=
  match m st with
  | Ok st' => (Ok st', st')
  | Raise e => (Raise e, st)
  end.

(** [BookingService.create_booking] as the class has it, under
    [@retry_on_concurrency_error(max_attempts=3, base_delay=0.1,
    max_delay=1.0)], called as [api/bookings.py] calls it: on an instance,
    so that [self] is the one positional argument, with the four others
    by keyword.  [body] is the method below the decorator, which already
    holds the values of the arguments. *)
Definition BookingService_create_booking (body : Store → result Store)
    (st : Store) : result Store * Store :=
  retry_on_concurrency_error 3
    (λ _ _, as_call body)
    [()]
    [("user_id", ()); ("event_id", ()); ("quantity", ()); ("seat_ids", ())]
    st.


(** ** [api/bookings.py] *)





(** ** Further methods of [SeatService] *)

(** The rows stand for the [seat_info] dictionaries built from them. *)
Record SeatAvailabilityResponse := {
  available_seats : list (uuid * Seat.t);
  unavailable_seats : list (uuid * Seat.t);
  missing_seat_ids : list uuid;
  all_available : bool
}.

Definition check_seat_availability (seat_ids : list uuid) (st : Store)
    : SeatAvailabilityResponse :=
  let seats := select_seats (λ id _, in_ id seat_ids) st in
  let available_seats :=
    filter (λ kv, Seat.status kv.2 = SeatStatus.AVAILABLE) seats in
  let unavailable_seats :=
    filter (λ kv, Seat.status kv.2 ≠ SeatStatus.AVAILABLE) seats in
  let found_seat_ids := seats.*1 in
  let missing_seat_ids :=
    filter (λ seat_id, seat_id ∉ found_seat_ids) seat_ids in
  {| available_seats := available_seats;
     unavailable_seats := unavailable_seats;
     missing_seat_ids := missing_seat_ids;
     all_available :=
       bool_decide (length unavailable_seats = 0%nat) &&
       bool_decide (length missing_seat_ids = 0%nat) |}.

Record SeatHoldResponse := {
  held_seat_ids : list uuid;
  hold_expires_at : datetime;
  hold_duration_minutes : Z
}.

Definition SEAT_HOLD_DURATION : Z := 15.

(** [hold_duration_minutes or self.SEAT_HOLD_DURATION]: 0 counts as not
    given *)
Definition hold_seats (now : datetime) (seat_ids : list uuid)
    (hold_duration_minutes : option Z) (st : Store)
    : result (Store * SeatHoldResponse) :=
  let hold_duration := py_or hold_duration_minutes SEAT_HOLD_DURATION in
  let expires_at := now + minutes hold_duration in
  let availability := check_seat_availability seat_ids st in
  if negb (all_available availability)
  then Raise (new_SeatNotAvailableError ["Cannot hold seats. Unavailable: ..."])
  else
    let st1 :=
      update_seats_where
        (λ id s, in_ id seat_ids &&
                 bool_decide (Seat.status s = SeatStatus.AVAILABLE))
        SeatStatus.HELD st in
    Ok (st1, {| held_seat_ids := seat_ids;
                hold_expires_at := expires_at;
                hold_duration_minutes := hold_duration |}).

Definition release_held_seats (seat_ids : list uuid) (st : Store)
    : result Store :=
  Ok (update_seats_where
        (λ id s, in_ id seat_ids &&
                 bool_decide (Seat.status s = SeatStatus.HELD))
        SeatStatus.AVAILABLE st).

(** ** Further methods of [WaitlistService] *)

Definition get_user_waitlist_position (user_id event_id : uuid) (st : Store)
    : result (option Z) :=
  entry ← _get_user_waitlist_entry user_id event_id st;
  Ok (match entry with
      | Some kv => Some (Waitlist.position kv.2)
      | None => None
      end).

(** ** Further factors of [DynamicPricingService] *)

Definition days (n : Z) : Z := n * 86400 * 1000000.

(** [(event.event_date - datetime.utcnow()).days] is the floor of the
    difference in days; the results stand for the literals [1.2], [1.1],
    [1.0], [0.95] and [0.9].  The pricing rule is not read.  The
    [event_date] is naive; [_calculate_time_multiplier_tz] below has both
    cases. *)
Definition _calculate_time_multiplier (now : datetime)
    (event : uuid * Event.t) : Q :=
  let days_until_event := (Event.event_date event.2 - now) / days 1 in
  if days_until_event <=? 1 then 12 # 10
  else if days_until_event <=? 7 then 11 # 10
  else if days_until_event <=? 30 then 1
  else if days_until_event <=? 90 then 95 # 100
  else 9 # 10.

(** ** [BulkBookingService._find_contiguous_group]
    ([services/bulk_booking_service.py]) *)

(** [s.isdigit()] and [int(s)] for a seat number in ASCII.  Beyond ASCII
    Python's [str.isdigit] and [int] also know the digits of other
    scripts; the properties below are about the numbers that
    [ascii_number] admits. *)
Definition is_digit (c : ascii) : bool :=
  ((48 <=? nat_of_ascii c)%nat && (nat_of_ascii c <=? 57)%nat)%bool.

Fixpoint all_digits (s : string) : bool :=
  match s with
  | EmptyString => true
  | String c s' => is_digit c && all_digits s'
  end.

Definition isdigit (s : string) : bool :=
  match s with
  | EmptyString => false
  | String _ _ => all_digits s
  end.

Fixpoint int_digits (acc : Z) (s : string) : Z :=
  match s with
  | EmptyString => acc
  | String c s' => int_digits (10 * acc + (Z.of_nat (nat_of_ascii c) - 48)) s'
  end.

(** [int(seat.number) if seat.number.isdigit() else None] *)
Definition seat_num (number : string) : option Z :=
  if isdigit number then Some (int_digits 0 number) else None.

(** A seat number of ASCII characters only, within the ten characters of
    the column ([String(10)]). *)
Definition ascii_number (number : string) : bool :=
  forallb (λ c, (nat_of_ascii c <? 128)%nat) (list_ascii_of_string number)
  && (String.length number <=? 10)%nat.

(** The inner loop, [for j in range(i + 1, min(i + quantity, len(seats)))]:
    the seats appended to [group], by the seats after the last one taken
    and the number of turns left. *)
Fixpoint extend_group {T} (number : T → string) (current_num : Z)
    (rest : list T) (turns : nat) : list T :=
  match turns, rest with
  | S turns', next_seat :: rest' =>
      match seat_num (number next_seat) with
      | Some next_num =>
          if bool_decide (next_num ≠ current_num + 1) then []
          else next_seat :: extend_group number next_num rest' turns'
      | None => []
      end
  | _, _ => []
  end.

(** The outer loop, [for i in range(len(seats) - quantity + 1)], by the
    seats from index [i] on and the number of turns left. *)
Fixpoint find_group_from {T} (number : T → string) (seats : list T)
    (turns quantity : nat) : list T :=
  match turns, seats with
  | S turns', seat :: rest =>
      match seat_num (number seat) with
      | None => find_group_from number rest turns' quantity
      | Some current_num =>
          let group :=
            seat :: extend_group number current_num rest (quantity - 1) in
          if bool_decide (length group = quantity) then group
          else find_group_from number rest turns' quantity
      end
  | _, _ => []
  end.

(** [None] stands for the [IndexError] of [seats[i]]: with
    [quantity <= 0] the range of [i] runs past the end of [seats], and no
    group of one seat or more has [quantity] seats. *)
Definition _find_contiguous_group {T} (number : T → string)
    (seats : list T) (quantity : Z) : option (list T) :=
  if quantity <=? 0 then None
  else Some (find_group_from number seats
               (length seats + 1 - Z.to_nat quantity)
               (Z.to_nat quantity)).

(** [quantity] seats whose numbers are [n], [n + 1], ... *)
Definition consecutive_run {T} (number : T → string) (quantity : nat)
    (group : list T) : Prop :=
  length group = quantity ∧
  ∃ n, (λ seat, seat_num (number seat)) <$> group
       = Some <$> seqZ n (Z.of_nat quantity).

(** ** Naive and timezone-aware datetimes

    [datetime.utcnow()] has no [tzinfo].  The datetime columns are
    [DateTime(timezone=True)]: PostgreSQL returns their values with a
    [tzinfo], while an attribute that the session has assigned and not
    reloaded (the session factory sets [expire_on_commit=False]) is still
    the value the code built, without one.  Python compares or subtracts
    two datetimes only when both have a [tzinfo] or neither has.

    [Booking.is_expired], [_validate_booking_request], [confirm_booking],
    [create_booking] and [_calculate_time_multiplier] above read the
    attribute as a naive datetime.  The definitions of this section take
    the [tzinfo] of the attribute as an argument; on [naive] they are the
    ones above. *)

Inductive tzinfo := naive | aware.

(** [datetime.utcnow() > x], which is also [x < datetime.utcnow()], for a
    datetime [x] that has [tz] *)
Definition utcnow_gt (tz : tzinfo) (now x : datetime) : result bool :=
  match tz with
  | naive => Ok (x <? now)
  | aware =>
      Raise (Exn TypeError
               "can't compare offset-naive and offset-aware datetimes")
  end.

(** [(x - datetime.utcnow()).days] *)
Definition days_until (tz : tzinfo) (now x : datetime) : result Z :=
  match tz with
  | naive => Ok ((x - now) / days 1)
  | aware =>
      Raise (Exn TypeError
               "can't subtract offset-naive and offset-aware datetimes")
  end.




Definition _validate_booking_request_tz (tz : tzinfo) (settings : Settings)
    (now : datetime) (event : uuid * Event.t) (quantity : Z)
    (seat_ids : option (list uuid)) (st : Store) : result unit :=
  if quantity <=? 0 then Raise unbound_BookingError
  else if max_booking_quantity settings <? quantity
  then Raise unbound_BookingError
  else
    past ← utcnow_gt tz now (Event.event_date event.2);
    if past : bool then Raise unbound_BookingError
    else
      match seat_ids with
      | Some ((_ :: _) as ids) =>
          if bool_decide (Z.of_nat (length ids) ≠ quantity)
          then Raise unbound_BookingError
          else if negb (Event.has_seat_selection event.2)
          then Raise unbound_BookingError
          else _validate_seat_availability ids st
      | _ =>
          if Event.available_capacity event.2 <? quantity
          then Raise (new_InsufficientCapacityError
                 ["Insufficient capacity. Available: " +:+
                  str_int (Event.available_capacity event.2) +:+
                  ", Requested: " +:+ str_int quantity])
          else Ok ()
      end.

(** The body of [async with self.session.begin()] in [create_booking],
    for an event whose [event_date] the session holds with [tz]. *)
Definition create_booking_tx_tz (tz : tzinfo) (settings : Settings)
    (now : datetime) (new_id user_id event_id : uuid) (quantity : Z)
    (seat_ids : option (list uuid)) (st : Store) : result Store :=
  event ← _get_event_with_lock event_id st;
  _validate_booking_request_tz tz settings now event quantity seat_ids st;;
  let total_amount := _calculate_total_amount event quantity seat_ids st in
  let expires_at := now + minutes (booking_hold_timeout_minutes settings) in
  let booking :=
    Booking.mk user_id event_id quantity total_amount
      BookingStatus.PENDING (Some expires_at) in
  st1 ← insert_booking new_id booking st;
  st2 ← match seat_ids with
        | Some ((_ :: _) as ids) => _reserve_specific_seats new_id ids st1
        | _ => _update_event_capacity event quantity st1
        end;
  Ok (_create_booking_history new_id BookingAction.CREATED st2).

(** [CacheKeyBuilder.booking_lock] *)
Definition booking_lock (event_id user_id : string) : string :=
  "lock:booking:" +:+ event_id +:+ ":" +:+ user_id.

(** [async with distributed_lock(key, timeout=30): body].
    [DistributedLock.__aenter__] raises when [acquire] returns [False]
    (no Redis client, or a [RedisError]); [acquired] is what [acquire]
    returned.  [__aexit__] releases the lock and lets the exception of the
    body pass. *)
Definition distributed_lock {A} (acquired : bool) (key : string)
    (body : result A) : result A :=
  if acquired then body
  else Raise (Exn RuntimeError ("Failed to acquire lock: " +:+ key)).

(** The whole body of [create_booking]: the lock encloses the [try], so
    the handler does not see the lock's error. *)
Definition create_booking_locked (acquired : bool) (tz : tzinfo)
    (settings : Settings) (now : datetime)
    (new_id user_id event_id : uuid) (quantity : Z)
    (seat_ids : option (list uuid)) (st : Store) : result Store :=
  distributed_lock acquired
    (booking_lock (str_uuid event_id) (str_uuid user_id))
    (try_except
       (create_booking_tx_tz tz settings now new_id user_id event_id
          quantity seat_ids st)
       create_booking_except).

(** [_calculate_time_multiplier] for an event whose [event_date] has
    [tz] *)
Definition _calculate_time_multiplier_tz (tz : tzinfo) (now : datetime)
    (event : uuid * Event.t) : result Q :=
  days_until_event ← days_until tz now (Event.event_date event.2);
  Ok (if days_until_event <=? 1 then 12 # 10
      else if days_until_event <=? 7 then 11 # 10
      else if days_until_event <=? 30 then 1%Q
      else if days_until_event <=? 90 then 95 # 100
      else 9 # 10).

(** ** Predicates of the properties *)






(** PENDING iff [expires_at] is set *)
Definition expiry_consistent (st : Store) : Prop :=
  map_Forall
    (λ _ b, Booking.status b = BookingStatus.PENDING ↔
            is_Some (Booking.expires_at b))
    (bookings st).

(** The transitions of the booking engine that commit. *)
Inductive booking_step (settings : Settings) : Store → Store → Prop :=
  | step_create now new_id user_id event_id quantity seat_ids st st' :
      create_booking settings now new_id user_id event_id quantity seat_ids st
        = Ok st' →
      booking_step settings st st'
  | step_confirm now booking_id st st' :
      confirm_booking now booking_id st = Ok st' →
      booking_step settings st st'
  | step_cancel booking_id st st' :
      cancel_booking booking_id st = Ok st' →
      booking_step settings st st'
  | step_expire booking_id st st' :
      expire_booking booking_id st = Ok st' →
      booking_step settings st st'.




(** ACTIVE and NOTIFIED entries of the event *)
Definition live_on (event_id : uuid) (w : Waitlist.t) : bool :=
  bool_decide (Waitlist.event_id w = event_id) && Waitlist.non_terminal w.

(** Their positions *)
Definition live_positions (event_id : uuid) (st : Store) : list Z :=
  (λ kv, Waitlist.position kv.2) <$> waitlist_rows (live_on event_id) st.

(** [1, 2, ..., k] *)
Definition one_to (k : nat) : list Z := seqZ 1 (Z.of_nat k).

(** the positions are [1..k], each once, [k] the number of entries *)
Definition contiguous_list (l : list Z) : Prop := l ≡ₚ one_to (length l).

Definition contiguous (event_id : uuid) (st : Store) : Prop :=
  contiguous_list (live_positions event_id st).

(** [position - 1] for the positions after [removed_position] *)
Definition shift_after (removed_position q : Z) : Z :=
  if removed_position <? q then q - 1 else q.

(** The four waitlist operations of the claim, completed. *)
Inductive waitlist_op (settings : Settings) : Store → Store → Prop :=
  | op_join now new_id user_id event_id requested_quantity st st' :
      join_waitlist now new_id user_id event_id requested_quantity st
        = Ok st' →
      waitlist_op settings st st'
  | op_leave now user_id event_id removed st st' :
      leave_waitlist now user_id event_id st = Ok (st', removed) →
      waitlist_op settings st st'
  | op_convert now waitlist_id booking_id st st' :
      convert_waitlist_to_booking now waitlist_id booking_id st = Ok st' →
      waitlist_op settings st st'
  | op_expire now expired st st' :
      expire_waitlist_notifications settings now st = Ok (st', expired) →
      waitlist_op settings st st'.

(** The waitlist operations that keep the positions dense: a completed
    [leave_waitlist], [convert_waitlist_to_booking] of an ACTIVE or
    NOTIFIED entry, and [join_waitlist] when no row of the event, terminal
    ones included, sits above the live entries. *)
Inductive waitlist_step : Store → Store → Prop :=
  | step_leave now user_id event_id removed st st' :
      leave_waitlist now user_id event_id st = Ok (st', removed) →
      waitlist_step st st'
  | step_convert now waitlist_id booking_id w st st' :
      waitlist st !! waitlist_id = Some w →
      Waitlist.non_terminal w = true →
      convert_waitlist_to_booking now waitlist_id booking_id st = Ok st' →
      waitlist_step st st'
  | step_join now new_id user_id event_id requested_quantity st st' :
      py_or (max_position event_id st) 0 ≤
        Z.of_nat (length (live_positions event_id st)) →
      join_waitlist now new_id user_id event_id requested_quantity st
        = Ok st' →
      waitlist_step st st'.

(** ** The life of a booking *)

(** The moves of a booking's status that the engine makes: none, out of
    PENDING, and from CONFIRMED to CANCELLED. *)
Definition status_moves (s s' : BookingStatus.t) : Prop :=
  s' = s ∨
  (s = BookingStatus.PENDING ∧ s' ≠ BookingStatus.PENDING) ∨
  (s = BookingStatus.CONFIRMED ∧ s' = BookingStatus.CANCELLED).

(** A PENDING booking has an expiry; a CONFIRMED or CANCELLED one has
    none. *)
Definition expiry_discipline (b : Booking.t) : Prop :=
  match Booking.status b with
  | BookingStatus.PENDING => is_Some (Booking.expires_at b)
  | BookingStatus.CONFIRMED | BookingStatus.CANCELLED =>
      Booking.expires_at b = None
  | BookingStatus.EXPIRED => True
  end.

(** ** Concrete stores used by the examples *)

Definition empty_store : Store :=
  {| events := ∅; seats := ∅; bookings := ∅; seat_bookings := [];
     booking_history := []; waitlist := ∅ |}.

(** Event 1: 10 places, all free, seat selection on, 50.00 a ticket,
    two seats 11 and 12. *)
Definition hall : Store :=
  {| events := {[ 1%N := Event.mk 1000000000 10 10 5000 true 1 true ]};
     seats := {[ 11%N := Seat.mk 1 4000 SeatStatus.AVAILABLE;
                 12%N := Seat.mk 1 6000 SeatStatus.AVAILABLE ]};
     bookings := ∅; seat_bookings := []; booking_history := [];
     waitlist := ∅ |}.

(** Event 1 sold out: no place left of 10. *)
Definition sold_out : Store :=
  {| events := {[ 1%N := Event.mk 1000000000 10 0 5000 false 1 true ]};
     seats := ∅; bookings := ∅; seat_bookings := [];
     booking_history := []; waitlist := ∅ |}.

Definition run {A} (r : result A) (d : A) : A :=
  match r with
  | Ok a => a
  | Raise _ => d
  end.

(** A booking of seats 11 and 12 of event 1, made at time 0. *)
Definition hall_with_seat_booking : Store :=
  run (create_booking default_settings 0 100 7 1 2 (Some [11%N; 12%N]) hall)
      empty_store.

(** A general-admission booking of 2 tickets of event 1, made at time 0;
    it expires at 900000000 (15 minutes). *)
Definition hall_with_ga_booking : Store :=
  run (create_booking default_settings 0 100 7 1 2 None hall) empty_store.

(** A CONFIRMED booking of seats 11 and 12, both BOOKED. *)
Definition hall_with_booked_seats : Store :=
  {| events := events hall;
     seats := {[ 11%N := Seat.mk 1 4000 SeatStatus.BOOKED;
                 12%N := Seat.mk 1 6000 SeatStatus.BOOKED ]};
     bookings :=
       {[ 100%N := Booking.mk 7 1 2 10000 BookingStatus.CONFIRMED None ]};
     seat_bookings := [SeatBooking.mk 100 11; SeatBooking.mk 100 12];
     booking_history := []; waitlist := ∅ |}.

(** Event 1 with one place left of 10, and three users waiting for two
    tickets each. *)
Definition one_place_left : Store :=
  {| events := {[ 1%N := Event.mk 1000000000 10 1 5000 false 1 true ]};
     seats := ∅; bookings := ∅; seat_bookings := [];
     booking_history := []; waitlist := ∅ |}.

Definition three_waiting : Store :=
  run (st1 ← join_waitlist 0 201 7 1 2 one_place_left;
       st2 ← join_waitlist 0 202 8 1 2 st1;
       join_waitlist 0 203 9 1 2 st2)
      empty_store.


(** Event 1 sold out; user 7 waits for 3 tickets at position 1, user 8
    for 1 ticket at position 2. *)
Definition two_waiting : Store :=
  run (st1 ← join_waitlist 0 201 7 1 3 sold_out;
       join_waitlist 0 202 8 1 1 st1)
      empty_store.


(** User 7 alone on the waitlist of the sold-out event, notified at
    time 5 that 2 places are free. *)
Definition one_notified : Store :=
  run (st1 ← join_waitlist 0 201 7 1 2 sold_out;
       r ← notify_waitlist 5 1 2 st1;
       Ok r.1)
      empty_store.

(** The waitlist of [two_waiting] after its second entry was converted. *)
Definition second_converted : Store :=
  run (convert_waitlist_to_booking 6 202 900 two_waiting) empty_store.

(** [one_notified] a day and an hour later, after the sweep of stale
    notifications. *)
Definition one_requeued : Store :=
  (run (expire_waitlist_notifications default_settings (hours 25)
          one_notified)
       (empty_store, [])).1.

(** [two_waiting] after user 7, at position 1, left. *)
Definition first_left : Store :=
  (run (leave_waitlist 6 7 1 two_waiting) (empty_store, false)).1.

(** * Properties *)

(** ** Capacity reservation ([_update_event_capacity]) *)

Lemma event_checks_reserve e q :
  Event.checks e = true → 0 ≤ q → q ≤ Event.available_capacity e →
  Event.checks (Event.with_capacity (Event.available_capacity e - q) e) = true.
Proof.
  unfold Event.checks. destruct e as [d t a p h v act]; simpl.
  rewrite !andb_true_iff, !Z.ltb_lt, !Z.leb_le. lia.
Qed.

(** The conditional update: with a matching version and enough capacity
    the row loses [quantity] places and its version grows by one, unless
    the new version leaves the column's range; any other row of the table
    is as before. *)
Lemma update_event_capacity_reserves event quantity st e :
  events st !! event.1 = Some e →
  Event.checks e = true →
  0 ≤ quantity →
  Event.version e = Event.version event.2 →
  quantity ≤ Event.available_capacity e →
  _update_event_capacity event quantity st =
    if Event.in_range
         (Event.with_capacity (Event.available_capacity e - quantity) e)
    then Ok (set_events
               (<[event.1 :=
                    Event.with_capacity
                      (Event.available_capacity e - quantity) e]>
                  (events st)) st)
    else Raise (out_of_range_error update_events_sql).
Proof.
  intros He Hck Hq Hv Ha.
  unfold _update_event_capacity, update_event_where. rewrite He.
  rewrite (proj2 (Z.eqb_eq _ _) Hv), (proj2 (Z.leb_le _ _) Ha). simpl.
  destruct (Event.in_range _); simpl; [|done].
  by rewrite event_checks_reserve.
Qed.

(** Within the range of its columns, a row that meets its constraints
    stays in range when places are taken, as long as the version can
    grow. *)
Lemma event_in_range_reserve e q :
  Event.checks e = true → Event.in_range e = true →
  0 ≤ q → q ≤ Event.available_capacity e →
  Event.in_range (Event.with_capacity (Event.available_capacity e - q) e) =
    bool_decide (Event.version e < 2147483647).
Proof.
  unfold Event.checks, Event.in_range, int32.
  destruct e as [d t a p h v act]; simpl.
  rewrite !andb_true_iff, !Z.ltb_lt, !Z.leb_le. intros Hck Hr Hq Ha.
  case_bool_decide.
  - rewrite !andb_true_iff, !Z.leb_le. lia.
  - apply not_true_is_false.
    rewrite !andb_true_iff, !Z.leb_le. lia.
Qed.

(** Zero rows affected: nothing is written, and the reread row decides
    which [raise] statement runs. *)
Lemma update_event_capacity_zero_rows event quantity st e :
  events st !! event.1 = Some e →
  ¬ (Event.version e = Event.version event.2 ∧
     quantity ≤ Event.available_capacity e) →
  _update_event_capacity event quantity st =
    Raise (if Event.available_capacity e <? quantity
           then new_InsufficientCapacityError ["Insufficient capacity"]
           else new_ConcurrencyError
                  ["Event was modified by another transaction"]).
Proof.
  intros He Hn.
  unfold _update_event_capacity, update_event_where. rewrite He.
  destruct ((Event.version e =? Event.version event.2) &&
            (quantity <=? Event.available_capacity e)) eqn:Hc.
  - apply andb_true_iff in Hc as [?%Z.eqb_eq ?%Z.leb_le]. tauto.
  - simpl. rewrite He. by destruct (_ <? _).
Qed.

(** Claim C1.  The conditional update behaves as stated (lemmas
    [update_event_capacity_reserves] and [update_event_capacity_zero_rows]),
    and a stale version ends in [ConcurrencyError]; but when the reread row
    has less than [quantity] places, [InsufficientCapacityError] is called
    with one positional argument where its [__init__] requires [requested]
    and [available], so what leaves the method is a [TypeError].  Here:
    event 1 has no place left, one ticket is asked for, versions agree. *)
Theorem update_event_capacity_insufficient_is_TypeError :
  let snapshot := Event.mk 1000000000 10 0 5000 false 1 true in
  events sold_out !! 1%N = Some snapshot ∧
  _update_event_capacity (1%N, snapshot) 1 sold_out =
    Raise (Exn TypeError
      "InsufficientCapacityError.__init__() missing 1 required positional argument: 'available'") ∧
  (∀ e, _update_event_capacity (1%N, snapshot) 1 sold_out = Raise e →
        exn_cls e ≠ InsufficientCapacityError).
Proof.
  split; [done|]. split; [by vm_compute|].
  intros e He. vm_compute in He. by injection He as <-.
Qed.

(** ** Confirmation ([confirm_booking]) *)

(** [confirm_booking] writes the booking row and one history row, nothing
    else. *)
Lemma confirm_booking_frame now booking_id st st' :
  confirm_booking now booking_id st = Ok st' →
  events st' = events st ∧ seats st' = seats st ∧
  seat_bookings st' = seat_bookings st ∧ waitlist st' = waitlist st.
Proof.
  unfold confirm_booking, _get_booking_with_relations.
  destruct (bookings st !! booking_id) as [b|]; simpl; [|done].
  destruct (_validate_booking_confirmation now (booking_id, b)); simpl;
    [|done].
  by intros [= <-].
Qed.

(** Claim C4.  Confirming a PENDING, unexpired booking that reserved
    specific seats sets the status CONFIRMED and clears [expires_at], but
    leaves the seats as they are: seats 11 and 12, HELD since the booking
    was created, are still HELD and not BOOKED afterwards. *)
Theorem confirm_booking_leaves_seats_held :
  seat_bookings_of 100 hall_with_seat_booking =
    [SeatBooking.mk 100 11; SeatBooking.mk 100 12] ∧
  Seat.status <$> seats hall_with_seat_booking !! 11%N = Some SeatStatus.HELD ∧
  Seat.status <$> seats hall_with_seat_booking !! 12%N = Some SeatStatus.HELD ∧
  ∃ st',
    confirm_booking 5000000 100 hall_with_seat_booking = Ok st' ∧
    bookings st' !! 100%N =
      Some (Booking.mk 7 1 2 10000 BookingStatus.CONFIRMED None) ∧
    Seat.status <$> seats st' !! 11%N = Some SeatStatus.HELD ∧
    Seat.status <$> seats st' !! 12%N = Some SeatStatus.HELD.
Proof.
  repeat split; try by vm_compute.
  eexists. split; [by vm_compute|]. by vm_compute.
Qed.







(** ** Cancellation and expiry *)

(** Claim C6.  Cancelling a CONFIRMED booking with seats makes its seats
    AVAILABLE, but its [seat_bookings] rows stay: [cancel_booking] never
    deletes them, and [release_booked_seats], under the comment "Delete
    seat booking records", executes a [select] and leaves them too. *)
Theorem cancel_booking_keeps_seat_booking_rows :
  (∃ st',
     cancel_booking 100 hall_with_booked_seats = Ok st' ∧
     Booking.status <$> bookings st' !! 100%N = Some BookingStatus.CANCELLED ∧
     Seat.status <$> seats st' !! 11%N = Some SeatStatus.AVAILABLE ∧
     Seat.status <$> seats st' !! 12%N = Some SeatStatus.AVAILABLE ∧
     seat_bookings_of 100 st' =
       [SeatBooking.mk 100 11; SeatBooking.mk 100 12]) ∧
  (∃ st',
     release_booked_seats 100 hall_with_booked_seats = Ok st' ∧
     Seat.status <$> seats st' !! 11%N = Some SeatStatus.AVAILABLE ∧
     Seat.status <$> seats st' !! 12%N = Some SeatStatus.AVAILABLE ∧
     seat_bookings_of 100 st' =
       [SeatBooking.mk 100 11; SeatBooking.mk 100 12]).
Proof.
  split; (eexists; split; [by vm_compute|]; by vm_compute).
Qed.

(** [expire_booking] writes the status only: [expires_at] is what it was. *)
Lemma expire_booking_keeps_expires_at booking_id st st' b :
  bookings st !! booking_id = Some b →
  Booking.status b = BookingStatus.PENDING →
  expire_booking booking_id st = Ok st' →
  bookings st' !! booking_id =
    Some (Booking.with_status BookingStatus.EXPIRED b).
Proof.
  intros Hb Hs. unfold expire_booking, _get_booking_with_relations.
  rewrite Hb; simpl. rewrite Hs; simpl.
  destruct (_release_booking_capacity (booking_id, b) st) as [st1|];
    simpl; [|done].
  intros [= <-]. simpl. by rewrite lookup_insert_eq.
Qed.

(** Claim C7.  The booking made at time 0 is PENDING with [expires_at]
    set; after [expire_booking] it is EXPIRED and [expires_at] is still
    set, where [confirm_booking] and [cancel_booking] clear it: PENDING iff
    [expires_at] set holds before and not after. *)
Theorem expire_booking_leaves_expires_at :
  expiry_consistent hall_with_ga_booking ∧
  ∃ st',
    booking_step default_settings hall_with_ga_booking st' ∧
    expire_booking 100 hall_with_ga_booking = Ok st' ∧
    bookings st' !! 100%N =
      Some (Booking.mk 7 1 2 10000 BookingStatus.EXPIRED (Some 900000000)) ∧
    ¬ expiry_consistent st'.
Proof.
  split.
  { unfold expiry_consistent. apply (bool_decide_unpack _). by vm_compute. }
  eexists. split; [|split; [by vm_compute|split; [by vm_compute|]]].
  { apply (step_expire _ 100%N). by vm_compute. }
  intros H. specialize (H 100%N _ ltac:(by vm_compute)).
  simpl in H. destruct H as [_ H]. by specialize (H (mk_is_Some _ _ eq_refl)).
Qed.

(** ** Dynamic pricing: the waitlist factor *)

Lemma pressure_tier_quotient n d :
  0 < d →
  pressure_tier (inject_Z n / inject_Z d) =
    if 2 * d <=? n then 13 # 10
    else if d <=? n then 115 # 100
    else if d <=? 2 * n then 105 # 100
    else 1%Q.
Proof.
  intros Hd. destruct d as [|p|p]; try lia.
  unfold pressure_tier, Qle_bool, Qdiv, Qmult, Qinv, inject_Z; simpl.
  rewrite !Z.mul_1_r.
  repeat match goal with
         | |- context [?a <=? ?b] => destruct (Z.leb_spec a b)
         end; try reflexivity; lia.
Qed.

(** Claim C10, as stated, fails: with one place left and three entries on
    the waitlist the code divides by 1 (factor 1.3) where
    [waitlistSize / max(availableCapacity, 10)] divides by 10 (factor 1.0). *)
Lemma waitlist_multiplier_differs_below_ten :
  events three_waiting !! 1%N =
    Some (Event.mk 1000000000 10 1 5000 false 1 true) ∧
  length (map_to_list (waitlist three_waiting)) = 3%nat ∧
  ¬ (_calculate_waitlist_multiplier
       (1%N, Event.mk 1000000000 10 1 5000 false 1 true) three_waiting
     == waitlist_factor_spec 3 1)%Q.
Proof.
  split; [by vm_compute|]. split; [by vm_compute|].
  vm_compute. discriminate.
Qed.

(** Claim C10, amended.  The pressure is [waitlistSize / availableCapacity]
    when [availableCapacity > 0] and [waitlistSize / 10] when the event is
    sold out; the factor is 1.3 from pressure 2, 1.15 from 1, 1.05 from 0.5
    and 1.0 below (and for an empty waitlist).  The divisor is
    [max(availableCapacity, 10)] only when [availableCapacity >= 10] or the
    event is sold out. *)
Theorem waitlist_multiplier_tiers (event : N * Event.t) (st : Store) :
  let n :=
    Z.of_nat (length (waitlist_rows
                (λ w, bool_decide (Waitlist.event_id w = event.1)) st)) in
  let d :=
    if 0 <? Event.available_capacity event.2
    then Event.available_capacity event.2 else 10 in
  _calculate_waitlist_multiplier event st =
    (if 2 * d <=? n then 13 # 10
     else if d <=? n then 115 # 100
     else if d <=? 2 * n then 105 # 100
     else 1%Q) ∧
  (10 ≤ Event.available_capacity event.2 ∨
   Event.available_capacity event.2 ≤ 0 →
   _calculate_waitlist_multiplier event st =
     waitlist_factor_spec n (Event.available_capacity event.2)).
Proof.
  intros n d. unfold _calculate_waitlist_multiplier. fold n.
  assert (Hd : 0 < d).
  { unfold d. destruct (Z.ltb_spec 0 (Event.available_capacity event.2)); lia. }
  split.
  - destruct (Z.eqb_spec n 0) as [Hn|Hn].
    + repeat match goal with
             | |- context [?a <=? ?b] => destruct (Z.leb_spec a b)
             end; try reflexivity; lia.
    + rewrite <- (pressure_tier_quotient n d Hd). unfold d.
      by destruct (0 <? Event.available_capacity event.2).
  - intros Hcap. unfold waitlist_factor_spec.
    destruct (Z.eqb_spec n 0) as [Hn|Hn].
    + rewrite Hn, pressure_tier_quotient by lia.
      repeat match goal with
             | |- context [?a <=? ?b] => destruct (Z.leb_spec a b)
             end; try reflexivity; lia.
    + destruct (Z.ltb_spec 0 (Event.available_capacity event.2)).
      * by rewrite Z.max_l by lia.
      * by rewrite Z.max_r by lia.
Qed.

(** ** Restoring capacity ([_release_booking_capacity]) *)








(** ** Offering capacity to the waitlist ([notify_waitlist]) *)

Global Instance by_position_total : Total by_position.
Proof. intros a b. unfold by_position. lia. Qed.








(** ** Capacity against active bookings *)





Lemma update_event_capacity_effect event_id e quantity st st' :
  events st !! event_id = Some e →
  _update_event_capacity (event_id, e) quantity st = Ok st' →
  quantity ≤ Event.available_capacity e ∧
  st' = set_events
          (<[event_id :=
               Event.with_capacity (Event.available_capacity e - quantity) e]>
             (events st)) st.
Proof.
  intros He. unfold _update_event_capacity, update_event_where. simpl.
  rewrite He, Z.eqb_refl. simpl.
  destruct (Z.leb_spec quantity (Event.available_capacity e)); simpl.
  - destruct (Event.in_range _); simpl; [|done].
    destruct (Event.checks _); simpl; [|done]. by intros [= <-].
  - rewrite He. by destruct (_ <? _).
Qed.

(** What a committed [create_booking] wrote. *)
Lemma create_booking_effect settings now new_id user_id event_id quantity
    seat_ids st st' :
  create_booking settings now new_id user_id event_id quantity seat_ids st
    = Ok st' →
  ∃ e b,
    events st !! event_id = Some e ∧
    bookings st !! new_id = None ∧
    0 < quantity ∧
    Booking.event_id b = event_id ∧ Booking.quantity b = quantity ∧
    Booking.status b = BookingStatus.PENDING ∧
    is_Some (Booking.expires_at b) ∧
    bookings st' = <[new_id := b]> (bookings st) ∧
    waitlist st' = waitlist st ∧
    ((∃ s ids,
        seat_ids = Some (s :: ids) ∧
        events st' = events st ∧
        seat_bookings st' =
          seat_bookings st ++ (SeatBooking.mk new_id <$> s :: ids) ∧
        seats st' =
          seats (update_seats_where
                   (λ id x, in_ id (s :: ids) &&
                      bool_decide (Seat.status x = SeatStatus.AVAILABLE))
                   SeatStatus.HELD st)) ∨
     ((seat_ids = None ∨ seat_ids = Some []) ∧
      seat_bookings st' = seat_bookings st ∧
      seats st' = seats st ∧
      quantity ≤ Event.available_capacity e ∧
      events st' =
        <[event_id :=
            Event.with_capacity (Event.available_capacity e - quantity) e]>
          (events st))).
Proof.
  unfold create_booking, try_except.
  destruct (create_booking_tx _ _ _ _ _ _ _ _) as [st2|err] eqn:Htx.
  2: { unfold create_booking_except. by repeat case_match. }
  intros [= <-]. revert Htx.
  unfold create_booking_tx, _get_event_with_lock.
  destruct (events st !! event_id) as [e|] eqn:He; simpl; [|done].
  destruct (Event.is_active e); simpl; [|done].
  destruct (_validate_booking_request _ _ _ _ _ _) as [[]|] eqn:Hval;
    simpl; [|done].
  unfold insert_booking.
  destruct (bookings st !! new_id) eqn:Hnew; simpl; [done|].
  destruct (Booking.checks _) eqn:Hck; simpl; [|done].
  assert (Hq : 0 < quantity).
  { revert Hval. unfold _validate_booking_request.
    destruct (Z.leb_spec quantity 0); [done|]. lia. }
  set (b := Booking.mk _ _ _ _ _ _).
  assert (Hga :
    ∀ st3,
      _update_event_capacity (event_id, e) quantity
        (set_bookings (<[new_id := b]> (bookings st)) st) = Ok st3 →
      st3 = set_events
              (<[event_id :=
                   Event.with_capacity
                     (Event.available_capacity e - quantity) e]>
                 (events st))
              (set_bookings (<[new_id := b]> (bookings st)) st) ∧
      quantity ≤ Event.available_capacity e).
  { intros st3 Hupd.
    by apply update_event_capacity_effect in Hupd as [? ->]. }
  destruct seat_ids as [[|s ids]|].
  - destruct (_update_event_capacity _ _ _) as [st3|]; simpl; [|done].
    intros [= <-]. destruct (Hga st3 eq_refl) as [-> ?].
    exists e, b. simpl. repeat split; try done. right. repeat split; auto.
  - unfold _reserve_specific_seats, insert_seat_bookings.
    case_bool_decide; simpl; [|done].
    case_bool_decide; simpl; [|done].
    case_bool_decide; simpl; [|done].
    intros [= <-]. exists e, b. simpl.
    repeat split; try done. left. exists s, ids. by repeat split.
  - destruct (_update_event_capacity _ _ _) as [st3|]; simpl; [|done].
    intros [= <-]. destruct (Hga st3 eq_refl) as [-> ?].
    exists e, b. simpl. repeat split; try done. right. repeat split; auto.
Qed.

Lemma release_booking_capacity_effect booking_id b st st1 :
  _release_booking_capacity (booking_id, b) st = Ok st1 →
  bookings st1 = bookings st ∧ seat_bookings st1 = seat_bookings st ∧
  waitlist st1 = waitlist st ∧
  ((seat_bookings_of booking_id st ≠ [] ∧ events st1 = events st) ∨
   (seat_bookings_of booking_id st = [] ∧ seats st1 = seats st ∧
    match events st !! Booking.event_id b with
    | Some e =>
        events st1 =
          <[Booking.event_id b :=
              Event.with_capacity
                (Event.available_capacity e + Booking.quantity b) e]>
            (events st)
    | None => events st1 = events st
    end)).
Proof.
  unfold _release_booking_capacity. simpl.
  destruct (seat_bookings_of booking_id st) as [|sb sbs] eqn:Hsb.
  - unfold update_event_where.
    destruct (events st !! Booking.event_id b) as [e|]; simpl.
    + destruct (Event.in_range _); simpl; [|done].
      destruct (Event.checks _); simpl; [|done].
      intros [= <-]. repeat split; try done. right. by repeat split.
    + intros [= <-]. repeat split; try done. right. by repeat split.
  - intros [= <-]. repeat split; try done. by left.
Qed.

Lemma cancel_booking_effect booking_id st st' :
  cancel_booking booking_id st = Ok st' →
  ∃ b st1,
    bookings st !! booking_id = Some b ∧
    (Booking.status b = BookingStatus.PENDING ∨
     Booking.status b = BookingStatus.CONFIRMED) ∧
    _release_booking_capacity (booking_id, b) st = Ok st1 ∧
    events st' = events st1 ∧ seats st' = seats st1 ∧
    seat_bookings st' = seat_bookings st1 ∧ waitlist st' = waitlist st1 ∧
    bookings st' =
      <[booking_id :=
          Booking.with_expires_at None
            (Booking.with_status BookingStatus.CANCELLED b)]> (bookings st1).
Proof.
  unfold cancel_booking, _get_booking_with_relations,
    _validate_booking_cancellation.
  destruct (bookings st !! booking_id) as [b|]; simpl; [|done].
  case_bool_decide as Hs; simpl; [done|].
  destruct (_release_booking_capacity _ _) as [st1|] eqn:Hrel; simpl;
    [|done].
  intros [= <-]. exists b, st1. simpl in Hs. repeat split; try done.
  destruct (Booking.status b);
    first [by left | by right | exfalso; apply Hs; by split].
Qed.

Lemma expire_booking_effect booking_id st st' :
  expire_booking booking_id st = Ok st' →
  st' = st ∨
  ∃ b st1,
    bookings st !! booking_id = Some b ∧
    Booking.status b = BookingStatus.PENDING ∧
    _release_booking_capacity (booking_id, b) st = Ok st1 ∧
    events st' = events st1 ∧ seats st' = seats st1 ∧
    seat_bookings st' = seat_bookings st1 ∧ waitlist st' = waitlist st1 ∧
    bookings st' =
      <[booking_id := Booking.with_status BookingStatus.EXPIRED b]>
        (bookings st1).
Proof.
  unfold expire_booking, _get_booking_with_relations.
  destruct (bookings st !! booking_id) as [b|]; simpl; [|done].
  case_bool_decide as Hs; simpl; [intros [= <-]; by left|].
  destruct (_release_booking_capacity _ _) as [st1|] eqn:Hrel; simpl;
    [|done].
  intros [= <-]. right. exists b, st1. simpl in Hs. repeat split; try done.
  all: destruct (Booking.status b); first [done | exfalso; by apply Hs].
Qed.

Lemma confirm_booking_effect now booking_id st st' :
  confirm_booking now booking_id st = Ok st' →
  ∃ b,
    bookings st !! booking_id = Some b ∧
    Booking.status b = BookingStatus.PENDING ∧
    bookings st' =
      <[booking_id :=
          Booking.with_expires_at None
            (Booking.with_status BookingStatus.CONFIRMED b)]> (bookings st).
Proof.
  unfold confirm_booking, _get_booking_with_relations,
    _validate_booking_confirmation.
  destruct (bookings st !! booking_id) as [b|]; simpl; [|done].
  case_bool_decide as Hs; simpl; [done|].
  destruct (Booking.is_expired now b); simpl; [done|].
  intros [= <-]. exists b. simpl in Hs. repeat split; try done.
  all: destruct (Booking.status b); first [done | exfalso; by apply Hs].
Qed.




Lemma seat_bookings_of_new_rows st st' new_id id seat_ids :
  seat_bookings st' =
    seat_bookings st ++ (SeatBooking.mk new_id <$> seat_ids) →
  seat_bookings_of id st' =
    seat_bookings_of id st ++
    if decide (id = new_id) then SeatBooking.mk new_id <$> seat_ids else [].
Proof.
  intros Hsb. unfold seat_bookings_of. rewrite Hsb, filter_app. f_equal.
  clear Hsb. induction seat_ids as [|s l IH].
  { by case_decide. }
  rewrite fmap_cons. case_decide as Hid.
  - subst id. rewrite filter_cons_True by done. by f_equal.
  - by rewrite filter_cons_False by (simpl; congruence).
Qed.










(** A seat selection passes [_validate_seat_availability] only when every
    selected seat exists and is AVAILABLE. *)
Lemma validate_seat_availability_ok seat_ids st :
  _validate_seat_availability seat_ids st = Ok () →
  ∀ sid, sid ∈ seat_ids →
    ∃ x, seats st !! sid = Some x ∧ Seat.status x = SeatStatus.AVAILABLE.
Proof.
  unfold _validate_seat_availability.
  case_bool_decide as Hlen; [done|]. intros _ sid Hsid.
  set (rows := select_seats _ st) in Hlen.
  assert (Hperm : rows.*1 ≡ₚ seat_ids).
  { apply submseteq_length_Permutation;
      [|by rewrite length_fmap, Hlen].
    apply NoDup_submseteq.
    - apply (sublist_NoDup _ (map_to_list (seats st)).*1);
        [apply NoDup_fst_map_to_list|].
      apply fmap_sublist, sublist_filter.
    - intros id [[id' x] [-> Hin]]%list_elem_of_fmap.
      apply list_elem_of_filter in Hin as [Hc _]. simpl in *.
      apply andb_true_iff in Hc as [Hc _].
      by apply bool_decide_eq_true in Hc. }
  rewrite <- Hperm in Hsid.
  apply list_elem_of_fmap in Hsid as [[id x] [-> Hin]].
  apply list_elem_of_filter in Hin as [Hc Hin]. simpl in *.
  apply andb_true_iff in Hc as [_ Hc]. apply bool_decide_eq_true in Hc.
  apply elem_of_map_to_list in Hin. eauto.
Qed.

(** A committed creation with seat ids leaves the events table alone and
    turns each selected seat from AVAILABLE to HELD. *)
Lemma create_booking_holds_seats settings now new_id user_id event_id
    quantity s ids st st' :
  create_booking settings now new_id user_id event_id quantity
    (Some (s :: ids)) st = Ok st' →
  events st' = events st ∧
  seat_bookings_of new_id st' ≠ [] ∧
  ∀ sid, sid ∈ s :: ids →
    ∃ x, seats st !! sid = Some x ∧
         Seat.status x = SeatStatus.AVAILABLE ∧
         seats st' !! sid = Some (Seat.with_status SeatStatus.HELD x).
Proof.
  intros Hc.
  assert (Hval : _validate_seat_availability (s :: ids) st = Ok ()).
  { revert Hc. unfold create_booking, try_except.
    destruct (create_booking_tx _ _ _ _ _ _ _ _) as [st2|err] eqn:Htx.
    2: { unfold create_booking_except. by repeat case_match. }
    intros _. revert Htx. unfold create_booking_tx, _get_event_with_lock.
    destruct (events st !! event_id) as [e|]; simpl; [|done].
    destruct (Event.is_active e); simpl; [|done].
    destruct (_validate_booking_request _ _ _ _ _ _) as [[]|] eqn:Hval;
      simpl; [|done].
    intros _. revert Hval. unfold _validate_booking_request.
    by repeat case_match. }
  apply create_booking_effect in Hc
    as (e & b & _ & _ & _ & _ & _ & _ & _ & _ & _ & Hpath).
  destruct Hpath as [(s' & ids' & [= <- <-] & Hev & Hsb & Hseats)
                    |([|] & _)]; [|done..].
  split; [done|]. split.
  { rewrite (seat_bookings_of_new_rows st st' new_id new_id (s :: ids))
      by done.
    rewrite decide_True, fmap_cons by done. by intros []%app_eq_nil. }
  intros sid Hsid.
  destruct (validate_seat_availability_ok _ _ Hval sid Hsid)
    as (x & Hx & Hav).
  exists x. split; [done|]. split; [done|].
  rewrite Hseats. unfold update_seats_where. simpl.
  rewrite map_lookup_imap, Hx. simpl. unfold in_.
  by rewrite !bool_decide_eq_true_2.
Qed.




(** ** Waitlist positions *)

Lemma contiguous_list_iff (l : list Z) :
  contiguous_list l ↔
  NoDup l ∧ ∀ p, p ∈ l → 1 ≤ p ≤ Z.of_nat (length l).
Proof.
  unfold contiguous_list, one_to. split.
  - intros Hperm. split.
    + rewrite Hperm. apply NoDup_seqZ.
    + intros p Hp. rewrite Hperm in Hp.
      apply elem_of_seqZ in Hp. lia.
  - intros [Hnd Hrange]. apply submseteq_length_Permutation.
    + apply NoDup_submseteq; [done|].
      intros p Hp. apply elem_of_seqZ. specialize (Hrange p Hp). lia.
    + rewrite length_seqZ. lia.
Qed.

Global Instance contiguous_list_proper :
  Proper ((≡ₚ) ==> iff) contiguous_list.
Proof.
  intros l1 l2 Hl. unfold contiguous_list.
  rewrite (Permutation_length Hl). by rewrite Hl.
Qed.

(** Taking one position out and moving the later ones down by one keeps
    the positions dense. *)
Lemma contiguous_remove_shift p (l l' : list Z) :
  l ≡ₚ p :: l' →
  contiguous_list l →
  contiguous_list (shift_after p <$> l').
Proof.
  intros Hl Hc. rewrite Hl in Hc.
  apply contiguous_list_iff in Hc as [Hnd Hrange].
  apply NoDup_cons in Hnd as [Hp Hnd]. simpl in Hrange.
  assert (Hp1 := Hrange p ltac:(left)).
  apply contiguous_list_iff. split.
  - apply NoDup_fmap_2_strong; [|done].
    intros x y Hx Hy. unfold shift_after.
    assert (x ≠ p) by (by intros ->). assert (y ≠ p) by (by intros ->).
    destruct (Z.ltb_spec p x), (Z.ltb_spec p y); lia.
  - intros q [x [-> Hx]]%list_elem_of_fmap. rewrite length_fmap.
    assert (x ≠ p) by (by intros ->).
    assert (Hx1 := Hrange x ltac:(by right)).
    unfold shift_after. destruct (Z.ltb_spec p x); lia.
Qed.

(** Appending position [k + 1] to [1..k] keeps the positions dense. *)
Lemma contiguous_add_next (l : list Z) :
  contiguous_list l →
  contiguous_list ((Z.of_nat (length l) + 1) :: l).
Proof.
  intros [Hnd Hrange]%contiguous_list_iff.
  apply contiguous_list_iff. split.
  - apply NoDup_cons. split; [|done].
    intros Hin. specialize (Hrange _ Hin). lia.
  - intros p [->|Hp]%elem_of_cons; simpl; [lia|].
    specialize (Hrange p Hp). lia.
Qed.

Lemma live_on_with_position now p ev w :
  live_on ev (Waitlist.with_position now p w) = live_on ev w.
Proof. done. Qed.

(** Rows of the table after [f <$>], for an [f] that keeps event and
    status. *)
Lemma live_positions_fmap (f : Waitlist.t → Waitlist.t) ev st :
  (∀ w, live_on ev (f w) = live_on ev w) →
  live_positions ev (set_waitlist (f <$> waitlist st) st) =
    (λ kv, Waitlist.position (f kv.2)) <$> waitlist_rows (live_on ev) st.
Proof.
  intros Hf. unfold live_positions, waitlist_rows. simpl.
  rewrite map_to_list_fmap.
  induction (map_to_list (waitlist st)) as [|[id w] l IH]; [done|].
  rewrite fmap_cons, !filter_cons. simpl. rewrite Hf.
  case_decide; [|done]. rewrite !fmap_cons. simpl. by f_equal.
Qed.

Lemma live_positions_delete ev id w st :
  waitlist st !! id = Some w →
  live_positions ev st ≡ₚ
    (if live_on ev w then [Waitlist.position w] else []) ++
    live_positions ev (set_waitlist (delete id (waitlist st)) st).
Proof.
  intros Hid. unfold live_positions, waitlist_rows. simpl.
  rewrite <- (map_to_list_delete (waitlist st) id w Hid).
  destruct (live_on ev w) eqn:Hl.
  - by rewrite filter_cons_True by done.
  - by rewrite filter_cons_False by (simpl; by rewrite Hl).
Qed.

Lemma live_positions_insert ev id w st :
  live_positions ev (set_waitlist (<[id := w]> (waitlist st)) st) ≡ₚ
    (if live_on ev w then [Waitlist.position w] else []) ++
    live_positions ev (set_waitlist (delete id (waitlist st)) st).
Proof.
  unfold live_positions, waitlist_rows. simpl.
  rewrite <- insert_delete_eq.
  rewrite map_to_list_insert by apply lookup_delete_eq.
  destruct (live_on ev w) eqn:Hl.
  - by rewrite filter_cons_True by done.
  - by rewrite filter_cons_False by (simpl; by rewrite Hl).
Qed.

(** [_reorder_waitlist_after_removal] on the positions of an event. *)
Lemma live_positions_reorder now ev event_id p st st' :
  _reorder_waitlist_after_removal now event_id p st = Ok st' →
  live_positions ev st' =
    if decide (ev = event_id)
    then shift_after p <$> live_positions ev st
    else live_positions ev st.
Proof.
  unfold _reorder_waitlist_after_removal, update_waitlist_where.
  case_bool_decide; [|done]. intros [= <-].
  rewrite live_positions_fmap.
  2: { intros w. by destruct (_ && _). }
  assert (Hrows : ∀ i kv,
            waitlist_rows (live_on ev) st !! i = Some kv →
            Waitlist.event_id kv.2 = ev ∧ Waitlist.non_terminal kv.2 = true).
  { intros i kv Hi.
    apply list_elem_of_lookup_2, list_elem_of_filter in Hi as [Hl _].
    unfold live_on in Hl. apply andb_true_iff in Hl as [Hev Hnt].
    by apply bool_decide_eq_true in Hev. }
  unfold live_positions. case_decide as Hd.
  - subst ev. rewrite <- list_fmap_compose.
    apply list_fmap_ext. intros i kv Hi.
    destruct (Hrows i kv Hi) as [Hev Hnt]. simpl.
    rewrite Hnt, andb_true_r, bool_decide_eq_true_2 by done. simpl.
    unfold shift_after. by destruct (p <? Waitlist.position kv.2).
  - apply list_fmap_ext. intros i kv Hi.
    destruct (Hrows i kv Hi) as [Hev Hnt].
    by rewrite bool_decide_eq_false_2 by congruence.
Qed.

(** The list-level step shared by Leave and Convert: one live entry of
    [event_id] gone, the later ones of that event moved down. *)
Lemma contiguous_after_removal ev event_id w (l l1 l1' l' : list Z) :
  live_on event_id w = true →
  l ≡ₚ (if live_on ev w then [Waitlist.position w] else []) ++ l1 →
  l1' ≡ₚ l1 →
  l' = (if decide (ev = event_id)
        then shift_after (Waitlist.position w) <$> l1' else l1') →
  contiguous_list l →
  contiguous_list l'.
Proof.
  intros Hw Hl Hl1 -> Hc. rewrite <- Hl1 in Hl. case_decide as Hev.
  - subst ev. rewrite Hw in Hl. by eapply contiguous_remove_shift.
  - assert (live_on ev w = false) as Hf.
    { unfold live_on in *. apply andb_true_iff in Hw as [Hw _].
      apply bool_decide_eq_true in Hw.
      by rewrite bool_decide_eq_false_2 by congruence. }
    rewrite Hf in Hl. simpl in Hl. by rewrite <- Hl.
Qed.

Lemma leave_waitlist_effect now user_id event_id removed st st' :
  leave_waitlist now user_id event_id st = Ok (st', removed) →
  (removed = false ∧ st' = st) ∨
  ∃ id w,
    waitlist st !! id = Some w ∧ live_on event_id w = true ∧
    _reorder_waitlist_after_removal now event_id (Waitlist.position w)
      (set_waitlist (delete id (waitlist st)) st) = Ok st'.
Proof.
  unfold leave_waitlist, try_except, _get_user_waitlist_entry.
  set (rows := waitlist_rows _ st).
  assert (Hrows : ∀ kv, kv ∈ rows →
            waitlist st !! kv.1 = Some kv.2 ∧ live_on event_id kv.2 = true).
  { intros [id w] Hin. apply list_elem_of_filter in Hin as [Hc Hin].
    apply elem_of_map_to_list in Hin. split; [done|]. simpl in *.
    apply andb_true_iff in Hc as [Hc Hnt].
    apply andb_true_iff in Hc as [_ Hev].
    unfold live_on. by rewrite Hev, Hnt. }
  destruct rows as [|[id w] [|kv rows]]; simpl.
  - intros [= <- <-]. by left.
  - destruct (_reorder_waitlist_after_removal _ _ _ _) as [st2|] eqn:Hre;
      simpl; [|done].
    intros [= <- <-]. right. exists id, w.
    destruct (Hrows (id, w) ltac:(left)) as [? ?]. by repeat split.
  - done.
Qed.

Lemma convert_waitlist_effect now waitlist_id booking_id w st st' :
  waitlist st !! waitlist_id = Some w →
  convert_waitlist_to_booking now waitlist_id booking_id st = Ok st' →
  _reorder_waitlist_after_removal now (Waitlist.event_id w)
    (Waitlist.position w)
    (set_waitlist
       (<[waitlist_id :=
            Waitlist.with_status now WaitlistStatus.CONVERTED w]>
          (waitlist st)) st) = Ok st'.
Proof.
  intros Hw. unfold convert_waitlist_to_booking, _get_waitlist_entry,
    write_waitlist.
  rewrite Hw. simpl. by destruct (Waitlist.checks _).
Qed.

Lemma max_position_ge ev st id w :
  waitlist st !! id = Some w →
  Waitlist.event_id w = ev →
  ∃ m, max_position ev st = Some m ∧ Waitlist.position w ≤ m.
Proof.
  intros Hw Hev. unfold max_position.
  assert (Hin : (id, w) ∈
            waitlist_rows (λ x, bool_decide (Waitlist.event_id x = ev)) st).
  { apply list_elem_of_filter. split.
    - simpl. by apply bool_decide_eq_true.
    - by apply elem_of_map_to_list. }
  induction (waitlist_rows _ st) as [|x l IH]; [by apply elem_of_nil in Hin|].
  apply elem_of_cons in Hin as [<-|Hin]; simpl.
  - destruct (foldr _ None l); eexists; split; try done; simpl; lia.
  - destruct (IH Hin) as (m & -> & Hm). eexists; split; [done|]. lia.
Qed.

Lemma join_waitlist_effect now new_id user_id event_id requested_quantity
    st st' :
  join_waitlist now new_id user_id event_id requested_quantity st = Ok st' →
  waitlist st !! new_id = None ∧
  0 < _get_next_waitlist_position event_id st ∧
  waitlist st' =
    <[new_id :=
        Waitlist.mk user_id event_id requested_quantity
          (_get_next_waitlist_position event_id st)
          WaitlistStatus.ACTIVE now]> (waitlist st).
Proof.
  unfold join_waitlist, try_except.
  destruct (_get_event event_id st) as [event|]; simpl.
  2: { unfold join_waitlist_except. by repeat case_match. }
  destruct (_ <=? _); simpl.
  { unfold join_waitlist_except. by repeat case_match. }
  destruct (_get_user_waitlist_entry user_id event_id st) as [[|]|]; simpl.
  1, 3: unfold join_waitlist_except; by repeat case_match.
  unfold insert_waitlist.
  destruct (waitlist st !! new_id) eqn:Hnew; simpl.
  { unfold join_waitlist_except. by repeat case_match. }
  destruct (waitlist_rows _ st); simpl.
  2: { unfold join_waitlist_except. by repeat case_match. }
  destruct (Waitlist.checks _) eqn:Hck; simpl.
  2: { unfold join_waitlist_except. by repeat case_match. }
  intros [= <-]. repeat split; try done.
  unfold Waitlist.checks in Hck. simpl in Hck.
  apply andb_true_iff in Hck as [_ Hck]. by apply Z.ltb_lt.
Qed.

Lemma contiguous_step ev st st' :
  contiguous ev st →
  waitlist_step st st' →
  contiguous ev st'.
Proof.
  unfold contiguous. intros Hc Hstep.
  destruct Hstep as
    [now user_id event_id removed st st' Hop
    |now waitlist_id booking_id w st st' Hw Hnt Hop
    |now new_id user_id event_id requested_quantity st st' Hmax Hop].
  - apply leave_waitlist_effect in Hop
      as [[_ ->] | (id & w & Hw & Hlive & Hre)]; [done|].
    eapply (contiguous_after_removal ev event_id w);
      [done| |reflexivity| |exact Hc].
    + by apply live_positions_delete.
    + by erewrite live_positions_reorder.
  - pose proof (convert_waitlist_effect _ _ _ _ _ _ Hw Hop) as Hre.
    eapply (contiguous_after_removal ev (Waitlist.event_id w) w);
      [| | |by erewrite live_positions_reorder|exact Hc].
    + unfold live_on. by rewrite Hnt, bool_decide_eq_true_2.
    + by apply live_positions_delete.
    + rewrite live_positions_insert.
      assert (live_on ev
                (Waitlist.with_status now WaitlistStatus.CONVERTED w) = false)
        as -> by apply andb_false_r.
      done.
  - apply join_waitlist_effect in Hop as (Hnew & Hpos & Hwl).
    unfold live_positions, waitlist_rows in *. rewrite Hwl.
    rewrite map_to_list_insert by done.
    destruct (decide (ev = event_id)) as [->|Hev].
    + rewrite filter_cons_True
        by (unfold live_on; simpl; by rewrite bool_decide_eq_true_2 by done).
      rewrite fmap_cons. simpl.
      set (l := (λ kv, Waitlist.position kv.2) <$> filter _ _) in *.
      assert (_get_next_waitlist_position event_id st =
              Z.of_nat (length l) + 1) as ->;
        [|by apply contiguous_add_next].
      unfold _get_next_waitlist_position in *.
      destruct (decide (length l = 0%nat)) as [Hl0|Hl0]; [lia|].
      assert (Hk : Z.of_nat (length l) ∈ one_to (length l))
        by (apply elem_of_seqZ; lia).
      unfold contiguous_list in Hc. rewrite <- Hc in Hk.
      apply list_elem_of_fmap in Hk as [[id w] [Hk Hin]].
      apply list_elem_of_filter in Hin as [Hlive Hin].
      apply elem_of_map_to_list in Hin. simpl in *.
      apply andb_true_iff in Hlive as [Hev _].
      apply bool_decide_eq_true in Hev.
      destruct (max_position_ge event_id st id w Hin Hev) as (m & Hm & Hle).
      rewrite Hm in *. simpl in *.
      destruct (Z.eqb_spec m 0); lia.
    + by rewrite filter_cons_False
        by (unfold live_on; simpl;
            by rewrite bool_decide_eq_false_2 by congruence).
Qed.

(** Claim C9, as stated, fails: the only entry of the waitlist, at
    position 1 and NOTIFIED, is moved by the sweep of stale notifications
    to [max(position) + 1 = 2]; the positions of the non-terminal entries
    are then [2], not [1]. *)
Lemma requeue_leaves_a_gap :
  ¬ (∀ settings st st' event_id,
       contiguous event_id st →
       waitlist_op settings st st' →
       contiguous event_id st').
Proof.
  intros H.
  assert (Hbad : ¬ contiguous 1 one_requeued).
  { unfold contiguous, contiguous_list. apply (bool_decide_eq_false_1 _).
    by vm_compute. }
  apply Hbad, (H default_settings one_notified).
  - unfold contiguous, contiguous_list. apply (bool_decide_unpack _).
    by vm_compute.
  - apply (op_expire _ (hours 25) [201%N]). by vm_compute.
Qed.

(** The restrictions of the amended claim are needed: a Join after the
    entry at the highest position was converted takes position 3 next to
    position 1, and converting an entry a second time moves the entries
    behind it down once more. *)
Example join_after_convert_leaves_a_gap :
  live_positions 1 second_converted = [1] ∧
  ∃ st',
    join_waitlist 7 203 9 1 2 second_converted = Ok st' ∧
    live_positions 1 st' ≡ₚ [1; 3].
Proof.
  split; [by vm_compute|]. eexists. split; [by vm_compute|].
  apply (bool_decide_unpack _). by vm_compute.
Qed.

Example convert_twice_collides :
  ∃ st1 st2,
    convert_waitlist_to_booking 6 201 900 three_waiting = Ok st1 ∧
    live_positions 1 st1 ≡ₚ [1; 2] ∧
    convert_waitlist_to_booking 7 201 900 st1 = Ok st2 ∧
    live_positions 1 st2 ≡ₚ [1; 1].
Proof.
  do 2 eexists. split; [by vm_compute|]. split.
  { apply (bool_decide_unpack _). by vm_compute. }
  split; [by vm_compute|]. apply (bool_decide_unpack _). by vm_compute.
Qed.

(** Claim C9, amended.  If the positions of an event's non-terminal
    (ACTIVE or NOTIFIED) entries form [1..k], they still do after any
    sequence of: a completed Leave; a Convert of an ACTIVE or NOTIFIED
    entry; a Join made when no row of the event, terminal ones included,
    has a position above [k] (Join takes [max(position) + 1] over all rows
    of the event). *)
Theorem waitlist_positions_stay_contiguous event_id st st' :
  contiguous event_id st →
  rtc waitlist_step st st' →
  contiguous event_id st'.
Proof.
  intros Hc Hsteps. induction Hsteps as [|st st1 st' Hstep _ IH]; [done|].
  eauto using contiguous_step.
Qed.

Lemma waitlist_positions_stay_contiguous_witness :
  contiguous 1 first_left.
Proof.
  apply (waitlist_positions_stay_contiguous 1 two_waiting first_left).
  - unfold contiguous, contiguous_list. apply (bool_decide_unpack _).
    vm_compute. exact I.
  - apply rtc_once. apply (step_leave 6 7%N 1%N true).
    vm_compute. reflexivity.
Defined.

(** ** Further properties of the engine *)

(** The compare-and-set of the capacity reservation.  On an event row that
    meets its constraints and fits its 32-bit columns,
    [_update_event_capacity] commits iff the stored version is the one the
    caller read, the row has [quantity] places, and the version is below
    2147483647, the last value of its column; it then takes [quantity] off
    [available_capacity], adds one to [version] and touches no other row.
    At version 2147483647 the matching UPDATE fails with "integer out of
    range".  With a stale version and enough places the method raises
    [ConcurrencyError]. *)
Theorem update_event_capacity_compare_and_set event quantity st e :
  events st !! event.1 = Some e →
  Event.checks e = true →
  Event.in_range e = true →
  0 ≤ quantity →
  (Event.version e = Event.version event.2 ∧
   quantity ≤ Event.available_capacity e ∧
   Event.version e < 2147483647 →
   _update_event_capacity event quantity st =
     Ok (set_events
           (<[event.1 :=
                Event.mk (Event.event_date e) (Event.total_capacity e)
                  (Event.available_capacity e - quantity) (Event.price e)
                  (Event.has_seat_selection e) (Event.version e + 1)
                  (Event.is_active e)]> (events st)) st)) ∧
  (∀ st', _update_event_capacity event quantity st = Ok st' →
          Event.version e = Event.version event.2 ∧
          quantity ≤ Event.available_capacity e ∧
          Event.version e < 2147483647) ∧
  (Event.version e = Event.version event.2 →
   quantity ≤ Event.available_capacity e →
   Event.version e = 2147483647 →
   _update_event_capacity event quantity st =
     Raise (Exn DBAPIError
              ("integer out of range [SQL: " +:+ update_events_sql +:+ "]"))) ∧
  (Event.version e ≠ Event.version event.2 →
   quantity ≤ Event.available_capacity e →
   _update_event_capacity event quantity st =
     Raise (Exn ConcurrencyError
              "Event was modified by another transaction")).
Proof.
  intros He Hck Hr Hq.
  assert (Hmatch : Event.version e = Event.version event.2 →
            quantity ≤ Event.available_capacity e →
            _update_event_capacity event quantity st =
              if bool_decide (Event.version e < 2147483647)
              then Ok (set_events
                         (<[event.1 :=
                              Event.with_capacity
                                (Event.available_capacity e - quantity) e]>
                            (events st)) st)
              else Raise (out_of_range_error update_events_sql)).
  { intros Hv Ha.
    rewrite (update_event_capacity_reserves event quantity st e) by done.
    by rewrite event_in_range_reserve. }
  split; [|split; [|split]].
  - intros (Hv & Ha & Hmax). rewrite Hmatch by done.
    by rewrite bool_decide_eq_true_2.
  - intros st' Hok.
    destruct (decide (Event.version e = Event.version event.2 ∧
                      quantity ≤ Event.available_capacity e)) as [[Hv Ha]|Hn].
    + rewrite Hmatch in Hok by done. by case_bool_decide.
    + rewrite (update_event_capacity_zero_rows event quantity st e He Hn)
        in Hok. done.
  - intros Hv Ha Hmax. rewrite Hmatch by done.
    rewrite bool_decide_eq_false_2 by lia. done.
  - intros Hv Ha.
    rewrite (update_event_capacity_zero_rows event quantity st e He)
      by tauto.
    by rewrite (proj2 (Z.ltb_ge _ _) Ha).
Qed.

Lemma update_event_capacity_compare_and_set_witness :
  _update_event_capacity
    (1%N, Event.mk 1000000000 10 10 5000 true 1 true) 2 hall =
    Ok (set_events
          {[ 1%N := Event.mk 1000000000 10 8 5000 true 2 true ]} hall).
Proof.
  refine (match update_event_capacity_compare_and_set
                  (1%N, Event.mk 1000000000 10 10 5000 true 1 true) 2 hall
                  (Event.mk 1000000000 10 10 5000 true 1 true) _ _ _ _ with
          | conj Hok _ => _
          end);
    [vm_compute; reflexivity | vm_compute; reflexivity
    | vm_compute; reflexivity | lia |].
  rewrite Hok by (simpl; lia). vm_compute. reflexivity.
Defined.





Lemma join_waitlist_new_user now new_id user_id event_id requested_quantity
    st st' :
  join_waitlist now new_id user_id event_id requested_quantity st = Ok st' →
  waitlist_rows
    (λ w, bool_decide (Waitlist.user_id w = user_id) &&
          bool_decide (Waitlist.event_id w = event_id) &&
          Waitlist.non_terminal w) st = [].
Proof.
  unfold join_waitlist, try_except.
  destruct (_get_event event_id st) as [event|]; simpl.
  2: { unfold join_waitlist_except. by repeat case_match. }
  destruct (_ <=? _); simpl.
  { unfold join_waitlist_except. by repeat case_match. }
  unfold _get_user_waitlist_entry.
  destruct (waitlist_rows _ st) as [|kv [|kv' rows]]; simpl; [done|..];
    unfold join_waitlist_except; by repeat case_match.
Qed.

Lemma next_waitlist_position_above ev st id w :
  waitlist st !! id = Some w →
  Waitlist.event_id w = ev →
  Waitlist.position w < _get_next_waitlist_position ev st.
Proof.
  intros Hw Hev. destruct (max_position_ge ev st id w Hw Hev) as (m & Hm & Hle).
  unfold _get_next_waitlist_position. rewrite Hm. simpl.
  destruct (m =? 0) eqn:Hz; [apply Z.eqb_eq in Hz|]; lia.
Qed.



(** ** The expiry sweep and the life of a booking *)










(** ** Creating a booking *)

Lemma validate_booking_request_naive settings now event quantity seat_ids st :
  _validate_booking_request_tz naive settings now event quantity seat_ids st =
  _validate_booking_request settings now event quantity seat_ids st.
Proof.
  unfold _validate_booking_request_tz, _validate_booking_request, utcnow_gt.
  destruct (quantity <=? 0); [done|].
  destruct (_ <? quantity); [done|]. simpl.
  by destruct (Event.event_date event.2 <? now).
Qed.

Lemma create_booking_tx_naive
    settings now new_id user_id event_id quantity seat_ids st :
  create_booking_tx_tz naive settings now new_id user_id event_id quantity
    seat_ids st =
  create_booking_tx settings now new_id user_id event_id quantity seat_ids st.
Proof.
  unfold create_booking_tx_tz, create_booking_tx.
  destruct (_get_event_with_lock event_id st) as [event|]; simpl; [|done].
  by rewrite validate_booking_request_naive.
Qed.

(** With the lock taken and a naive [event_date], the method is one run
    of the [try] as embedded first. *)
Lemma create_booking_locked_naive
    settings now new_id user_id event_id quantity seat_ids st :
  create_booking_locked true naive settings now new_id user_id event_id
    quantity seat_ids st =
  create_booking settings now new_id user_id event_id quantity seat_ids st.
Proof.
  unfold create_booking_locked, create_booking, distributed_lock.
  by rewrite create_booking_tx_naive.
Qed.

(** Whatever the body of the [try] raised, the handler raises. *)
Lemma create_booking_except_classes (body : result Store) err :
  try_except body create_booking_except = Raise err →
  err = Exn ConcurrencyError
          "Event was modified by another transaction. Please try again." ∨
  err = Exn NameError "name 'BookingError' is not defined".
Proof.
  unfold try_except. destruct body as [st'|e]; [done|].
  unfold create_booking_except.
  destruct (_ || _); [|case_bool_decide]; intros [= <-]; auto.
Qed.

(** With an aware [event_date] the body of the [try] never gets past the
    validation of the request. *)
Lemma create_booking_tx_aware
    settings now new_id user_id event_id quantity seat_ids st :
  ∃ e, create_booking_tx_tz aware settings now new_id user_id event_id
         quantity seat_ids st = Raise e.
Proof.
  unfold create_booking_tx_tz, _get_event_with_lock.
  destruct (events st !! event_id) as [e|]; simpl; [|by eexists].
  destruct (Event.is_active e); simpl; [|by eexists].
  unfold _validate_booking_request_tz.
  destruct (quantity <=? 0); simpl; [by eexists|].
  destruct (_ <? quantity); simpl; by eexists.
Qed.

(** What a committed general-admission [create_booking] required and
    wrote.  The lock was taken and [event_date] was compared as a naive
    datetime; the event exists, is active and not in the past; the
    quantity is between 1 and the configured maximum and at most the free
    capacity; the booking id is new.  The booking is PENDING, costs
    [price * quantity] and expires [booking_hold_timeout_minutes] after
    [now]; the event loses [quantity] places and its version grows by one,
    inside the range of the column; one CREATED history row is added.
    With an aware [event_date], as a query loads it from PostgreSQL, or
    without the lock, no call commits, whatever is asked for. *)
Theorem create_booking_general_admission_committed
    acquired tz settings now new_id user_id event_id quantity seat_ids st :
  (∀ st',
     seat_ids = None ∨ seat_ids = Some [] →
     create_booking_locked acquired tz settings now new_id user_id event_id
       quantity seat_ids st = Ok st' →
     acquired = true ∧ tz = naive ∧
     ∃ e,
       events st !! event_id = Some e ∧
       Event.is_active e = true ∧
       bookings st !! new_id = None ∧
       0 < quantity ≤ max_booking_quantity settings ∧
       now ≤ Event.event_date e ∧
       quantity ≤ Event.available_capacity e ∧
       Event.version e + 1 ≤ 2147483647 ∧
       st' =
         _create_booking_history new_id BookingAction.CREATED
           (set_events
              (<[event_id :=
                   Event.with_capacity
                     (Event.available_capacity e - quantity) e]>
                 (events st))
              (set_bookings
                 (<[new_id :=
                      Booking.mk user_id event_id quantity
                        (Event.price e * quantity) BookingStatus.PENDING
                        (Some (now +
                               minutes
                                 (booking_hold_timeout_minutes settings)))]>
                    (bookings st)) st))) ∧
  (acquired = false ∨ tz = aware →
   ∃ err,
     create_booking_locked acquired tz settings now new_id user_id event_id
       quantity seat_ids st = Raise err).
Proof.
  split.
  - intros st' Hids. destruct acquired; [|done].
    destruct tz.
    2: { unfold create_booking_locked, distributed_lock, try_except.
         destruct (create_booking_tx_aware settings now new_id user_id
                     event_id quantity seat_ids st) as [e ->].
         unfold create_booking_except. by repeat case_match. }
    rewrite create_booking_locked_naive.
    unfold create_booking, try_except.
    destruct (create_booking_tx _ _ _ _ _ _ _ _) as [st2|err] eqn:Htx.
    2: { unfold create_booking_except. by repeat case_match. }
    intros [= <-]. split; [done|]. split; [done|]. revert Htx.
    unfold create_booking_tx, _get_event_with_lock.
    destruct (events st !! event_id) as [e|] eqn:He; simpl; [|done].
    destruct (Event.is_active e) eqn:Hact; simpl; [|done].
    destruct (_validate_booking_request _ _ _ _ _ _) as [[]|] eqn:Hval;
      simpl; [|done].
    assert (Hreq : 0 < quantity ≤ max_booking_quantity settings ∧
                   now ≤ Event.event_date e ∧
                   quantity ≤ Event.available_capacity e).
    { revert Hval. unfold _validate_booking_request. simpl.
      destruct (Z.leb_spec quantity 0); [done|].
      destruct (Z.ltb_spec (max_booking_quantity settings) quantity);
        [done|].
      destruct (Z.ltb_spec (Event.event_date e) now); [done|].
      destruct Hids as [-> | ->];
        (destruct (Z.ltb_spec (Event.available_capacity e) quantity);
           [done|]); lia. }
    destruct Hreq as (Hq & Hdate & Hcap).
    assert (Hamount : _calculate_total_amount (event_id, e) quantity
                        seat_ids st = Event.price e * quantity).
    { by destruct Hids as [-> | ->]. }
    rewrite Hamount. unfold insert_booking.
    destruct (bookings st !! new_id) eqn:Hnew; simpl; [done|].
    destruct (Booking.checks _); simpl; [|done].
    set (st1 := set_bookings _ st).
    assert (Hupd :
      ∀ st3, _update_event_capacity (event_id, e) quantity st1 = Ok st3 →
        Event.version e + 1 ≤ 2147483647 ∧
        st3 = set_events
                (<[event_id :=
                     Event.with_capacity
                       (Event.available_capacity e - quantity) e]>
                   (events st)) st1).
    { intros st3. unfold _update_event_capacity, update_event_where. simpl.
      rewrite He, Z.eqb_refl, (proj2 (Z.leb_le _ _) Hcap). simpl.
      destruct (Event.in_range _) eqn:Hr; simpl; [|done].
      destruct (Event.checks _); simpl; [|done]. intros [= <-].
      split; [|done]. revert Hr. unfold Event.in_range, int32. simpl.
      rewrite !andb_true_iff, !Z.leb_le. lia. }
    intros Hrest. exists e.
    assert (Hend : ∃ st3,
              _update_event_capacity (event_id, e) quantity st1 = Ok st3 ∧
              st2 = _create_booking_history new_id BookingAction.CREATED st3).
    { destruct Hids as [-> | ->];
        (destruct (_update_event_capacity _ _ _) as [st3|]; simpl in Hrest;
           [|done]); injection Hrest as <-; by eexists. }
    destruct Hend as (st3 & Hst3 & ->).
    destruct (Hupd st3 Hst3) as [Hver Heq]. rewrite Heq.
    repeat split; done || lia.
  - intros [-> | ->]; [by eexists|].
    unfold create_booking_locked, distributed_lock.
    destruct acquired; [|by eexists].
    unfold try_except.
    destruct (create_booking_tx_aware settings now new_id user_id event_id
                quantity seat_ids st) as [e ->].
    unfold create_booking_except. repeat case_match; by eexists.
Qed.

Lemma create_booking_general_admission_committed_witness :
  ∃ st',
    create_booking_locked true naive default_settings 0 100 7 1 2 None hall
      = Ok st' ∧
    events st' = {[ 1%N := Event.mk 1000000000 10 8 5000 true 2 true ]} ∧
    bookings st' =
      {[ 100%N := Booking.mk 7 1 2 10000 BookingStatus.PENDING
                    (Some 900000000) ]}.
Proof.
  eexists. split; [vm_compute; reflexivity|].
  refine (match create_booking_general_admission_committed true naive
                  default_settings 0 100%N 7%N 1%N 2 None hall with
          | conj Hok _ => _
          end).
  destruct (Hok _ (or_introl eq_refl) eq_refl) as (_ & _ & x & Hx & _).
  vm_compute in Hx. injection Hx as <-.
  split; vm_compute; reflexivity.
Defined.

(** Whatever goes wrong inside the [try] of [create_booking], its handler
    turns it into a [ConcurrencyError] or, through the unbound name
    [BookingError], into a [NameError]: no [InsufficientCapacityError] and
    no [EventNotFoundError] reaches the caller.  The one other error of
    the method is the [RuntimeError] of a lock that was not acquired,
    raised outside the [try]. *)
Theorem create_booking_failures
    acquired tz settings now new_id user_id event_id quantity seat_ids st :
  (∀ (body : result Store) key err,
     distributed_lock acquired key (try_except body create_booking_except)
       = Raise err →
     (acquired = false ∧
      err = Exn RuntimeError ("Failed to acquire lock: " +:+ key)) ∨
     (acquired = true ∧
      (err = Exn ConcurrencyError
               "Event was modified by another transaction. Please try again." ∨
       err = Exn NameError "name 'BookingError' is not defined"))) ∧
  (∀ err,
     create_booking_locked acquired tz settings now new_id user_id event_id
       quantity seat_ids st = Raise err →
     (acquired = false ∧
      err = Exn RuntimeError
              ("Failed to acquire lock: lock:booking:" +:+
               str_uuid event_id +:+ ":" +:+ str_uuid user_id)) ∨
     (acquired = true ∧
      (err = Exn ConcurrencyError
               "Event was modified by another transaction. Please try again." ∨
       err = Exn NameError "name 'BookingError' is not defined"))).
Proof.
  assert (Hlock : ∀ (body : result Store) key err,
     distributed_lock acquired key (try_except body create_booking_except)
       = Raise err →
     (acquired = false ∧
      err = Exn RuntimeError ("Failed to acquire lock: " +:+ key)) ∨
     (acquired = true ∧
      (err = Exn ConcurrencyError
               "Event was modified by another transaction. Please try again." ∨
       err = Exn NameError "name 'BookingError' is not defined"))).
  { intros body key err. unfold distributed_lock. destruct acquired.
    - intros Hbody. right. split; [done|].
      by apply (create_booking_except_classes body).
    - intros [= <-]. by left. }
  split; [exact Hlock|].
  intros err Hc. apply Hlock in Hc. exact Hc.
Qed.

Lemma create_booking_failures_witness :
  ∃ err,
    create_booking_locked true naive default_settings 0 100 7 1 2 None
      sold_out = Raise err ∧
    (err = Exn ConcurrencyError
             "Event was modified by another transaction. Please try again." ∨
     err = Exn NameError "name 'BookingError' is not defined").
Proof.
  eexists. split; [vm_compute; reflexivity|].
  refine (match create_booking_failures true naive default_settings 0 100%N
                  7%N 1%N 2 None sold_out with
          | conj _ Hall => _
          end).
  destruct (Hall _ ltac:(vm_compute; reflexivity)) as [[[=] _]|[_ H]].
  exact H.
Defined.






(** ** Retrying ([utils/retry.py]) *)



(** Keywords that name no parameter are all collected in [**kwargs]. *)
Lemma bind_keywords_collects {V} (f : signature)
    (keywords filled kwargs : list (string * V)) :
  Forall (λ kv, kv.1 ∉ fn_params f) keywords →
  bind_keywords f keywords filled kwargs = Ok (filled, kwargs ++ keywords).
Proof.
  revert kwargs. induction keywords as [|kv rest IH]; intros kwargs Hall.
  - by rewrite app_nil_r.
  - apply Forall_cons in Hall as [Hkv Hrest]. simpl.
    rewrite bool_decide_eq_false_2 by done.
    rewrite IH by done. by rewrite <- app_assoc.
Qed.

Lemma call_keywords_disjoint {V} (f : signature)
    (written kwargs : list (string * V)) :
  Forall (λ kv, kv.1 ∉ written.*1) kwargs →
  call_keywords f written kwargs = Ok (written ++ kwargs).
Proof.
  intros Hall. unfold call_keywords.
  destruct (list_find _ kwargs) as [[i kv]|] eqn:Hfind; [|done].
  apply list_find_Some in Hfind as (Hi & Hin & _).
  rewrite Forall_forall in Hall.
  destruct (Hall kv (list_elem_of_lookup_2 _ _ _ Hi) Hin).
Qed.

(** The binding of the call that the wrapper makes when it was given a
    positional argument: the argument has taken the parameter
    [retryable_exceptions] before the keyword of that name arrives. *)
Lemma bind_retry_async_positional {V} (arg : V) (args : list V)
    (kwargs : list (string * passed V)) :
  bind_call retry_async_signature
    ([the_func; the_config] ++ (argument <$> arg :: args))
    ([("retryable_exceptions", classes concurrency_retryable);
      ("non_retryable_exceptions", classes concurrency_non_retryable)]
     ++ kwargs) =
  Raise (Exn TypeError
           "retry_async() got multiple values for argument 'retryable_exceptions'").
Proof.
  unfold bind_call. simpl. reflexivity.
Qed.

(** A function under [@retry_on_concurrency_error] that is called with a
    positional argument never runs: the wrapper appends its [*args] to
    [func] and [config] in the call of [retry_async], whose third
    parameter, [retryable_exceptions], the call also gives by keyword, and
    Python refuses the call with a [TypeError].  Every call of a method on
    an instance has the positional argument [self]; so it is for
    [BookingService.create_booking], whatever its body would do.  Called
    with keywords only, none of them the name of a parameter of
    [retry_async], the function is retried on [ConcurrencyError] as
    intended. *)
Theorem retry_on_concurrency_error_rejects_positional :
  (∀ (V W A : Type) (max_attempts : Z)
     (func : list (passed V) → list (string * passed V) → W → result A * W)
     (arg : V) (args : list V) (kwargs : list (string * V)) (s : W),
     (Forall (λ kv, kv.1 ∉ ["retryable_exceptions";
                            "non_retryable_exceptions"]) kwargs →
      retry_on_concurrency_error max_attempts func (arg :: args) kwargs s =
        (Raise (Exn TypeError
                  "retry_async() got multiple values for argument 'retryable_exceptions'"),
         s)) ∧
     ∃ message,
       retry_on_concurrency_error max_attempts func (arg :: args) kwargs s =
         (Raise (Exn TypeError message), s)) ∧
  (∀ (V W A : Type) (max_attempts : Z)
     (func : list (passed V) → list (string * passed V) → W → result A * W)
     (kwargs : list (string * V)) (s : W),
     Forall (λ kv, kv.1 ∉ fn_params retry_async_signature) kwargs →
     retry_on_concurrency_error max_attempts func [] kwargs s =
       retry_async (func [] (prod_map id argument <$> kwargs)) max_attempts
         concurrency_retryable concurrency_non_retryable s) ∧
  (∀ body st,
     BookingService_create_booking body st =
       (Raise (Exn TypeError
                 "retry_async() got multiple values for argument 'retryable_exceptions'"),
        st)).
Proof.
  split; [|split].
  - intros V W A max_attempts func arg args kwargs s.
    unfold retry_on_concurrency_error.
    destruct (call_keywords retry_async_signature _ _) as [keywords|e]
      eqn:Hkw.
    + assert (Hkeywords : keywords =
                [("retryable_exceptions", classes concurrency_retryable);
                 ("non_retryable_exceptions",
                  classes concurrency_non_retryable)]
                ++ (prod_map id argument <$> kwargs)).
      { revert Hkw. unfold call_keywords.
        destruct (list_find _ _) as [[? ?]|]; [done|]. by intros [= <-]. }
      subst keywords. unfold mbind, result_bind. cbv beta.
      rewrite (bind_retry_async_positional arg args).
      split; [done|by eexists].
    + simpl. split.
      * intros Hall. exfalso. revert Hkw.
        rewrite call_keywords_disjoint; [done|].
        rewrite Forall_fmap. eapply Forall_impl; [exact Hall|].
        by intros [k v].
      * revert Hkw. unfold call_keywords.
        destruct (list_find _ _) as [[? ?]|]; [|done].
        intros [= <-]. by eexists.
  - intros V W A max_attempts func kwargs s Hall.
    unfold retry_on_concurrency_error.
    rewrite call_keywords_disjoint.
    2: { rewrite Forall_fmap. eapply Forall_impl; [exact Hall|].
         intros [k v] Hk. simpl in *.
         rewrite !not_elem_of_cons in Hk. rewrite !not_elem_of_cons.
         tauto. }
    simpl. unfold bind_call. simpl.
    rewrite bind_keywords_collects.
    2: { rewrite Forall_fmap. eapply Forall_impl; [exact Hall|].
         by intros [k v]. }
    simpl. done.
  - intros body st. unfold BookingService_create_booking.
    by vm_compute.
Qed.


(** ** Errors as HTTP responses ([api/bookings.py]) *)




(** ** Seat holds ([SeatService]) *)

Lemma elem_of_select_seats cond st id x :
  (id, x) ∈ select_seats cond st ↔
  cond id x = true ∧ seats st !! id = Some x.
Proof.
  unfold select_seats. rewrite list_elem_of_filter, elem_of_map_to_list.
  done.
Qed.

Lemma lookup_update_seats_where cond s st id :
  seats (update_seats_where cond s st) !! id =
    (λ x, if cond id x then Seat.with_status s x else x) <$> seats st !! id.
Proof.
  unfold update_seats_where. simpl. rewrite map_lookup_imap.
  by destruct (seats st !! id).
Qed.

Lemma check_seat_availability_spec seat_ids st :
  all_available (check_seat_availability seat_ids st) = true ↔
  ∀ id, id ∈ seat_ids →
    ∃ x, seats st !! id = Some x ∧ Seat.status x = SeatStatus.AVAILABLE.
Proof.
  unfold check_seat_availability. simpl.
  rewrite andb_true_iff, !bool_decide_eq_true, !length_zero_iff_nil.
  split.
  - intros [Hun Hmiss] id Hid.
    destruct (decide (id ∈ (select_seats (λ id0 _, in_ id0 seat_ids) st).*1))
      as [Hfound|Hnot].
    + apply list_elem_of_fmap in Hfound as ([id' x] & -> & Hin). simpl.
      exists x. split; [by apply elem_of_select_seats in Hin as [_ ?]|].
      destruct (decide (Seat.status x = SeatStatus.AVAILABLE)) as [|Hne];
        [done|].
      exfalso. by eapply (filter_nil_not_elem_of _ _ (id', x) Hun).
    + exfalso. by eapply (filter_nil_not_elem_of _ _ id Hmiss).
  - intros Hall. split; apply elem_of_nil_inv.
    + intros [id x] [Hne Hin]%list_elem_of_filter. simpl in *.
      apply elem_of_select_seats in Hin as [Hid Hx].
      apply bool_decide_eq_true in Hid.
      destruct (Hall id Hid) as (x' & Hx' & Hav). congruence.
    + intros id [Hnot Hid]%list_elem_of_filter.
      destruct (Hall id Hid) as (x & Hx & _). apply Hnot.
      apply list_elem_of_fmap. exists (id, x). split; [done|].
      apply elem_of_select_seats. split; [|done].
      by apply bool_decide_eq_true.
Qed.

(** [check_seat_availability] reports [all_available] exactly when every
    requested id is the id of a seat whose status is AVAILABLE.  The rows
    it lists as available or unavailable are seats that were asked for,
    and an id it lists as missing is the id of no seat. *)
Theorem check_seat_availability_sound seat_ids st :
  let r := check_seat_availability seat_ids st in
  (all_available r = true ↔
   ∀ id, id ∈ seat_ids →
     ∃ x, seats st !! id = Some x ∧ Seat.status x = SeatStatus.AVAILABLE) ∧
  (∀ id x, (id, x) ∈ available_seats r ↔
     id ∈ seat_ids ∧ seats st !! id = Some x ∧
     Seat.status x = SeatStatus.AVAILABLE) ∧
  (∀ id x, (id, x) ∈ unavailable_seats r ↔
     id ∈ seat_ids ∧ seats st !! id = Some x ∧
     Seat.status x ≠ SeatStatus.AVAILABLE) ∧
  (∀ id, id ∈ missing_seat_ids r ↔ id ∈ seat_ids ∧ seats st !! id = None).
Proof.
  split; [apply check_seat_availability_spec|].
  unfold check_seat_availability. simpl. split; [|split].
  - intros id x. rewrite list_elem_of_filter, elem_of_select_seats.
    unfold in_. rewrite bool_decide_eq_true. simpl. tauto.
  - intros id x. rewrite list_elem_of_filter, elem_of_select_seats.
    unfold in_. rewrite bool_decide_eq_true. simpl. tauto.
  - intros id. rewrite list_elem_of_filter. split.
    + intros [Hnot Hid]. split; [done|].
      destruct (seats st !! id) as [x|] eqn:Hx; [|done].
      exfalso. apply Hnot. apply list_elem_of_fmap. exists (id, x).
      split; [done|]. apply elem_of_select_seats.
      split; [by apply bool_decide_eq_true|done].
    + intros [Hid Hx]. split; [|done].
      intros ([id' x] & -> & Hin)%list_elem_of_fmap.
      apply elem_of_select_seats in Hin as [_ Hin]. simpl in *. congruence.
Qed.

Lemma hold_seats_ok now seat_ids duration st :
  (∀ id, id ∈ seat_ids →
     ∃ x, seats st !! id = Some x ∧ Seat.status x = SeatStatus.AVAILABLE) →
  hold_seats now seat_ids duration st =
    Ok (update_seats_where
          (λ id s, in_ id seat_ids &&
                   bool_decide (Seat.status s = SeatStatus.AVAILABLE))
          SeatStatus.HELD st,
        {| held_seat_ids := seat_ids;
           hold_expires_at :=
             now + minutes (py_or duration SEAT_HOLD_DURATION);
           hold_duration_minutes := py_or duration SEAT_HOLD_DURATION |}).
Proof.
  intros Hall. unfold hold_seats.
  by rewrite (proj2 (check_seat_availability_spec seat_ids st) Hall).
Qed.

(** [hold_seats] holds all the requested seats or none.  If one of the
    ids is not the id of an AVAILABLE seat, it raises (the [TypeError] of
    [SeatNotAvailableError] called with one argument) and writes nothing.
    Otherwise every requested seat goes from AVAILABLE to HELD, every
    other seat is as before, and the hold is announced to last
    [hold_duration_minutes], or 15 minutes when that is absent or 0. *)
Theorem hold_seats_all_or_nothing now seat_ids duration st :
  (¬ (∀ id, id ∈ seat_ids →
        ∃ x, seats st !! id = Some x ∧
             Seat.status x = SeatStatus.AVAILABLE) →
   hold_seats now seat_ids duration st =
     Raise (Exn TypeError
              "SeatNotAvailableError.__init__() missing 1 required positional argument: 'current_status'")) ∧
  ((∀ id, id ∈ seat_ids →
      ∃ x, seats st !! id = Some x ∧ Seat.status x = SeatStatus.AVAILABLE) →
   ∃ st1,
     hold_seats now seat_ids duration st =
       Ok (st1,
           {| held_seat_ids := seat_ids;
              hold_expires_at :=
                now + minutes (match duration with
                               | Some d => if d =? 0 then 15 else d
                               | None => 15
                               end);
              hold_duration_minutes :=
                match duration with
                | Some d => if d =? 0 then 15 else d
                | None => 15
                end |}) ∧
     (∀ id x, id ∈ seat_ids → seats st !! id = Some x →
        seats st1 !! id = Some (Seat.with_status SeatStatus.HELD x)) ∧
     (∀ id, id ∉ seat_ids → seats st1 !! id = seats st !! id) ∧
     events st1 = events st ∧ bookings st1 = bookings st ∧
     seat_bookings st1 = seat_bookings st).
Proof.
  split.
  - intros Hnot. unfold hold_seats.
    destruct (all_available _) eqn:Hall; [|done].
    exfalso. apply Hnot. by apply check_seat_availability_spec.
  - intros Hall. eexists. split; [by apply hold_seats_ok|].
    split; [|split].
    + intros id x Hid Hx. rewrite lookup_update_seats_where, Hx. simpl.
      destruct (Hall id Hid) as (x' & Hx' & Hav).
      assert (x' = x) as -> by congruence. unfold in_.
      by rewrite !bool_decide_eq_true_2.
    + intros id Hid. rewrite lookup_update_seats_where. unfold in_.
      rewrite (bool_decide_eq_false_2 _ Hid). simpl.
      by destruct (seats st !! id).
    + done.
Qed.

(** Holding seats and releasing the same seats gives back the [seats]
    table as it was before the hold. *)
Theorem hold_then_release_restores_seats now seat_ids duration st st1 r :
  hold_seats now seat_ids duration st = Ok (st1, r) →
  ∃ st2,
    release_held_seats seat_ids st1 = Ok st2 ∧
    seats st2 = seats st ∧ events st2 = events st ∧
    bookings st2 = bookings st ∧ seat_bookings st2 = seat_bookings st.
Proof.
  unfold hold_seats.
  destruct (all_available _) eqn:Hall; simpl; [|done].
  pose proof (proj1 (check_seat_availability_spec _ _) Hall) as Hav.
  clear Hall. rename Hav into Hall.
  intros [= <- _]. eexists. split; [done|]. split; [|done].
  apply map_eq. intros id.
  rewrite !lookup_update_seats_where.
  destruct (seats st !! id) as [[ev p s]|] eqn:Hx; simpl; [|done].
  unfold in_. case_bool_decide as Hid; simpl; [|done].
  destruct (Hall id Hid) as (x' & Hx' & Hav).
  assert (x' = Seat.mk ev p s) as -> by congruence. simpl in Hav.
  by subst s.
Qed.

Lemma hold_then_release_restores_seats_witness :
  ∃ st1 r,
    hold_seats 0 [11%N; 12%N] None hall = Ok (st1, r) ∧
    seats st1 !! 11%N = Some (Seat.mk 1 4000 SeatStatus.HELD) ∧
    ∃ st2,
      release_held_seats [11%N; 12%N] st1 = Ok st2 ∧
      seats st2 = seats hall ∧ events st2 = events hall ∧
      bookings st2 = bookings hall ∧ seat_bookings st2 = seat_bookings hall.
Proof.
  eexists _, _. split; [vm_compute; reflexivity|].
  split; [vm_compute; reflexivity|].
  eapply (hold_then_release_restores_seats 0 [11%N; 12%N] None hall).
  vm_compute. reflexivity.
Defined.

(** [release_held_seats] turns the HELD seats among the given ones to
    AVAILABLE and touches nothing else: a seat that is BOOKED, BLOCKED or
    not named keeps its row.  Releasing again changes nothing. *)
Theorem release_held_seats_only_held seat_ids st :
  ∃ st1,
    release_held_seats seat_ids st = Ok st1 ∧
    (∀ id x, seats st !! id = Some x →
       seats st1 !! id =
         Some (if decide (id ∈ seat_ids ∧ Seat.status x = SeatStatus.HELD)
               then Seat.with_status SeatStatus.AVAILABLE x else x)) ∧
    (∀ id, seats st !! id = None → seats st1 !! id = None) ∧
    release_held_seats seat_ids st1 = Ok st1.
Proof.
  eexists. split; [done|]. split; [|split].
  - intros id x Hx. rewrite lookup_update_seats_where, Hx. simpl.
    unfold in_. case_decide as Hc.
    + destruct Hc as [Hid Hs]. by rewrite !bool_decide_eq_true_2.
    + destruct (bool_decide (id ∈ seat_ids)) eqn:Hid; simpl; [|done].
      apply bool_decide_eq_true in Hid.
      by rewrite bool_decide_eq_false_2 by tauto.
  - intros id Hx. by rewrite lookup_update_seats_where, Hx.
  - unfold release_held_seats. f_equal.
    destruct st as [ev ss bk sb bh wl].
    unfold update_seats_where, set_seats. simpl.
    f_equal. apply map_eq. intros id. rewrite !map_lookup_imap.
    destruct (ss !! id) as [[e p s]|]; simpl; [|done].
    by destruct (in_ id seat_ids), s.
Qed.


(** The seats a query selects come with distinct ids. *)
Lemma NoDup_fst_select_seats cond st : NoDup (select_seats cond st).*1.
Proof.
  unfold select_seats.
  eapply sublist_NoDup; [apply (NoDup_fst_map_to_list (seats st))|].
  apply fmap_sublist, sublist_filter.
Qed.

(** [book_seats] refuses when a requested seat is BOOKED or BLOCKED.  When
    it commits, every seat that was asked for is BOOKED, the other seats
    are as before, and [seat_bookings] gains exactly one row of the
    booking for each requested id that is the id of a seat; an id of no
    seat is passed over without an error; the new rows were not in the
    table, and if there is one the booking exists.  When every requested
    seat is AVAILABLE or HELD and the table has no row of the booking for
    a requested seat, the call commits if the booking exists, and fails
    with [ValidationError] if it does not and a requested seat does. *)
Theorem book_seats_effect seat_ids booking_id st :
  ((∃ id x, id ∈ seat_ids ∧ seats st !! id = Some x ∧
            (Seat.status x = SeatStatus.BOOKED ∨
             Seat.status x = SeatStatus.BLOCKED)) →
   book_seats seat_ids booking_id st =
     Raise (Exn TypeError
              "SeatNotAvailableError.__init__() missing 1 required positional argument: 'current_status'")) ∧
  (∀ st1, book_seats seat_ids booking_id st = Ok st1 →
     (∀ id x, seats st !! id = Some x →
        seats st1 !! id =
          Some (if decide (id ∈ seat_ids)
                then Seat.with_status SeatStatus.BOOKED x else x)) ∧
     (∀ id, seats st !! id = None → seats st1 !! id = None) ∧
     ∃ rows,
       seat_bookings st1 = seat_bookings st ++ rows ∧
       NoDup rows ∧
       (∀ sb, sb ∈ rows ↔
          SeatBooking.booking_id sb = booking_id ∧
          SeatBooking.seat_id sb ∈ seat_ids ∧
          is_Some (seats st !! SeatBooking.seat_id sb)) ∧
       (∀ sb, sb ∈ rows →
          (sb ∉ seat_bookings st) ∧ is_Some (bookings st !! booking_id))) ∧
  ((∀ id x, id ∈ seat_ids → seats st !! id = Some x →
      Seat.status x = SeatStatus.AVAILABLE ∨
      Seat.status x = SeatStatus.HELD) →
   (∀ id, id ∈ seat_ids →
      SeatBooking.mk booking_id id ∉ seat_bookings st) →
   (is_Some (bookings st !! booking_id) →
    ∃ st1, book_seats seat_ids booking_id st = Ok st1) ∧
   (bookings st !! booking_id = None →
    (∃ id, id ∈ seat_ids ∧ is_Some (seats st !! id)) →
    ∃ e, book_seats seat_ids booking_id st = Raise e ∧
         exn_cls e = ValidationError)).
Proof.
  unfold book_seats.
  set (found := select_seats (λ id _, in_ id seat_ids) st).
  set (rows := (λ kv : uuid * Seat.t, SeatBooking.mk booking_id kv.1)
                 <$> found).
  assert (Hrows : ∀ sb, sb ∈ rows ↔
            SeatBooking.booking_id sb = booking_id ∧
            SeatBooking.seat_id sb ∈ seat_ids ∧
            is_Some (seats st !! SeatBooking.seat_id sb)).
  { intros [bid sid]. unfold rows. rewrite list_elem_of_fmap. simpl. split.
    - intros ([id x] & [= -> ->] & Hin). simpl.
      apply elem_of_select_seats in Hin as [Hid Hx].
      apply bool_decide_eq_true in Hid. by rewrite Hx.
    - intros (-> & Hid & [x Hx]). exists (sid, x). split; [done|].
      apply elem_of_select_seats. split; [|done].
      by apply bool_decide_eq_true. }
  assert (Hnodup : NoDup rows).
  { unfold rows.
    replace ((λ kv : uuid * Seat.t, SeatBooking.mk booking_id kv.1) <$> found)
      with (SeatBooking.mk booking_id <$> found.*1)
      by (by rewrite <- list_fmap_compose).
    apply NoDup_fmap_2; [by intros ?? [=]|].
    apply NoDup_fst_select_seats. }
  split; [|split].
  - intros (id & x & Hid & Hx & Hs).
    destruct (filter _ found) as [|kv l] eqn:Hf; [|done].
    exfalso. eapply (filter_nil_not_elem_of _ _ (id, x) Hf).
    + simpl. destruct Hs as [-> | ->]; by split.
    + apply elem_of_select_seats. split; [|done].
      by apply bool_decide_eq_true.
  - intros st1. destruct (filter _ found) as [|kv l]; [|done].
    unfold try_except, insert_seat_bookings. fold rows.
    case_bool_decide as Huq; [|done].
    case_bool_decide as Hfk; [|done].
    case_bool_decide as Hfs; [|done].
    intros [= <-]. split; [|split].
    + intros id x Hx. simpl. rewrite map_lookup_imap, Hx. simpl.
      unfold in_. by repeat case_decide; repeat case_bool_decide.
    + intros id Hx. simpl. by rewrite map_lookup_imap, Hx.
    + exists rows. split; [done|]. split; [done|]. split; [done|].
      intros sb Hsb. destruct Huq as [_ Hfresh].
      rewrite Forall_forall in Hfresh, Hfk. split.
      * by apply Hfresh.
      * specialize (Hfk sb Hsb). simpl in Hfk.
        apply Hrows in Hsb as [Hid _]. by rewrite <- Hid.
  - intros Hbookable Hfresh.
    assert (Hnone : filter (λ kv : uuid * Seat.t,
                      Seat.status kv.2 ≠ SeatStatus.AVAILABLE ∧
                      Seat.status kv.2 ≠ SeatStatus.HELD) found = []).
    { apply elem_of_nil_inv. intros [id x] [[Ha Hh] Hin]%list_elem_of_filter.
      apply elem_of_select_seats in Hin as [Hid Hx].
      apply bool_decide_eq_true in Hid. simpl in *.
      destruct (Hbookable id x Hid Hx); done. }
    rewrite Hnone. unfold try_except, insert_seat_bookings. fold rows.
    assert (Huq : NoDup rows ∧
              Forall (λ r, r ∉ seat_bookings
                             (update_seats_where (λ id _, in_ id seat_ids)
                                SeatStatus.BOOKED st)) rows).
    { split; [done|]. apply Forall_forall. intros [bid sid] Hsb.
      apply Hrows in Hsb as (Hb & Hid & _). simpl in *. subst bid.
      by apply Hfresh. }
    rewrite (bool_decide_eq_true_2 _ Huq).
    assert (Hfs : Forall (λ r, is_Some
                (seats (update_seats_where (λ id _, in_ id seat_ids)
                          SeatStatus.BOOKED st) !! SeatBooking.seat_id r))
              rows).
    { apply Forall_forall. intros sb Hsb.
      apply Hrows in Hsb as (_ & _ & [x Hx]).
      rewrite lookup_update_seats_where, Hx. by eexists. }
    split.
    + intros Hbooking.
      rewrite bool_decide_eq_true_2.
      2: { apply Forall_forall. intros sb Hsb.
           apply Hrows in Hsb as (Hb & _). simpl. by rewrite Hb. }
      rewrite (bool_decide_eq_true_2 _ Hfs). by eexists.
    + intros Hbooking (id & Hid & [x Hx]).
      rewrite bool_decide_eq_false_2.
      2: { rewrite Forall_forall. intros Hall.
           specialize (Hall (SeatBooking.mk booking_id id)).
           simpl in Hall. rewrite Hbooking in Hall.
           destruct Hall as [? [=]].
           apply Hrows. simpl. split; [done|]. split; [done|].
           by rewrite Hx. }
      by eexists.
Qed.



(** Seats held through [hold_seats] cannot be booked through
    [create_booking]: the request asks for AVAILABLE seats and finds them
    HELD, so it fails whoever makes it, the holder included. *)
Theorem held_seats_cannot_be_booked
    now seat_id seat_ids duration st st1 r :
  hold_seats now (seat_id :: seat_ids) duration st = Ok (st1, r) →
  ∀ settings now' new_id user_id event_id quantity,
    ∃ e, create_booking settings now' new_id user_id event_id quantity
           (Some (seat_id :: seat_ids)) st1 = Raise e.
Proof.
  intros Hhold settings now' new_id user_id event_id quantity.
  destruct (create_booking _ _ _ _ _ _ _ st1) as [st2|e] eqn:Hcreate;
    [|by eexists].
  exfalso.
  destruct (create_booking_holds_seats _ _ _ _ _ _ _ _ _ _ Hcreate)
    as (_ & _ & Hfree).
  destruct (Hfree seat_id ltac:(left)) as (x1 & Hx1 & Hav & _).
  revert Hhold. unfold hold_seats.
  destruct (all_available _) eqn:Hall; simpl; [|done].
  pose proof (proj1 (check_seat_availability_spec _ _) Hall) as Hbefore.
  intros [= <- _].
  destruct (Hbefore seat_id ltac:(left)) as (x & Hx & _).
  rewrite lookup_update_seats_where, Hx in Hx1. simpl in Hx1.
  unfold in_ in Hx1. rewrite bool_decide_eq_true_2 in Hx1 by left.
  injection Hx1 as <-. simpl in Hav.
  destruct (decide (Seat.status x = SeatStatus.AVAILABLE)) as [Hs|Hs];
    [rewrite bool_decide_eq_true_2 in Hav by done
    |rewrite bool_decide_eq_false_2 in Hav by done];
    simpl in Hav; congruence.
Qed.

Lemma held_seats_cannot_be_booked_witness :
  ∃ st1 r,
    hold_seats 0 [11%N; 12%N] None hall = Ok (st1, r) ∧
    ∃ e, create_booking default_settings 1 100 7 1 2
           (Some [11%N; 12%N]) st1 = Raise e.
Proof.
  eexists _, _. split; [vm_compute; reflexivity|].
  eapply (held_seats_cannot_be_booked 0 11%N [12%N] None hall).
  vm_compute. reflexivity.
Defined.


(** ** Offers, joins and leaves ([WaitlistService]) *)








(** What a committed [join_waitlist] found and wrote. *)
Lemma join_waitlist_inv now new_id user_id event_id requested_quantity
    st st' :
  join_waitlist now new_id user_id event_id requested_quantity st = Ok st' →
  ∃ e,
    events st !! event_id = Some e ∧ Event.is_active e = true ∧
    Event.available_capacity e < requested_quantity ∧
    waitlist st !! new_id = None ∧
    waitlist_rows
      (λ x, bool_decide (Waitlist.user_id x = user_id) &&
            bool_decide (Waitlist.event_id x = event_id)) st = [] ∧
    st' = set_waitlist
            (<[new_id :=
                 Waitlist.mk user_id event_id requested_quantity
                   (_get_next_waitlist_position event_id st)
                   WaitlistStatus.ACTIVE now]> (waitlist st)) st.
Proof.
  unfold join_waitlist, try_except, _get_event.
  destruct (events st !! event_id) as [e|]; simpl.
  2: { unfold join_waitlist_except. by repeat case_match. }
  destruct (Event.is_active e) eqn:Hact; simpl.
  2: { unfold join_waitlist_except. by repeat case_match. }
  destruct (Z.leb_spec requested_quantity (Event.available_capacity e));
    simpl.
  { unfold join_waitlist_except. by repeat case_match. }
  destruct (_get_user_waitlist_entry user_id event_id st) as [[|]|]; simpl.
  1, 3: unfold join_waitlist_except; by repeat case_match.
  unfold insert_waitlist.
  destruct (waitlist st !! new_id) eqn:Hnew; simpl.
  { unfold join_waitlist_except. by repeat case_match. }
  destruct (waitlist_rows _ st) eqn:Hrows; simpl.
  2: { unfold join_waitlist_except. by repeat case_match. }
  destruct (Waitlist.checks _); simpl.
  2: { unfold join_waitlist_except. by repeat case_match. }
  intros [= <-]. exists e. by repeat split.
Qed.

(** The rows of a user on an event, after that user joined. *)
Lemma join_waitlist_entry now new_id user_id event_id requested_quantity
    st st' :
  join_waitlist now new_id user_id event_id requested_quantity st = Ok st' →
  waitlist_rows
    (λ x, bool_decide (Waitlist.user_id x = user_id) &&
          bool_decide (Waitlist.event_id x = event_id) &&
          Waitlist.non_terminal x) st' =
    [(new_id,
      Waitlist.mk user_id event_id requested_quantity
        (_get_next_waitlist_position event_id st)
        WaitlistStatus.ACTIVE now)].
Proof.
  intros Hjoin.
  pose proof (join_waitlist_new_user _ _ _ _ _ _ _ Hjoin) as Hnone.
  destruct (join_waitlist_effect _ _ _ _ _ _ _ Hjoin) as (Hnew & _ & Hwl).
  apply Permutation_singleton_r. unfold waitlist_rows in *.
  rewrite Hwl, (map_to_list_insert _ _ _ Hnew).
  rewrite filter_cons_True.
  - by rewrite Hnone.
  - simpl. by rewrite !bool_decide_eq_true_2 by done.
Qed.

(** A user is on the waitlist of an event at most once: after a
    [join_waitlist] that committed, a second one by the same user for the
    same event is refused, with [EventNotSoldOutError] when the new
    request fits the free capacity and with [AlreadyOnWaitlistError]
    otherwise. *)
Theorem join_waitlist_twice_is_refused
    now new_id user_id event_id requested_quantity st st1 :
  join_waitlist now new_id user_id event_id requested_quantity st = Ok st1 →
  ∃ e, events st !! event_id = Some e ∧
  ∀ now' new_id' requested_quantity',
    join_waitlist now' new_id' user_id event_id requested_quantity' st1 =
      Raise (if requested_quantity' <=? Event.available_capacity e
             then Exn EventNotSoldOutError
                    "Event has available capacity. Please book directly."
             else Exn AlreadyOnWaitlistError
                    "User is already on waitlist for this event").
Proof.
  intros Hjoin.
  pose proof (join_waitlist_entry _ _ _ _ _ _ _ Hjoin) as Hentry.
  destruct (join_waitlist_inv _ _ _ _ _ _ _ Hjoin)
    as (e & He & Hact & _ & _ & _ & ->).
  exists e. split; [done|]. intros now' new_id' rq'.
  unfold join_waitlist, try_except, _get_event. simpl.
  rewrite He, Hact. simpl.
  destruct (rq' <=? Event.available_capacity e); simpl; [done|].
  unfold _get_user_waitlist_entry. by rewrite Hentry.
Qed.

Lemma join_waitlist_twice_is_refused_witness :
  ∃ st1,
    join_waitlist 0 201 7 1 3 sold_out = Ok st1 ∧
    join_waitlist 1 202 7 1 2 st1 =
      Raise (Exn AlreadyOnWaitlistError
               "User is already on waitlist for this event").
Proof.
  eexists. split; [vm_compute; reflexivity|].
  destruct (join_waitlist_twice_is_refused 0 201%N 7%N 1%N 3 sold_out _
              ltac:(vm_compute; reflexivity)) as (e & He & Hsecond).
  vm_compute in He. injection He as <-.
  apply (Hsecond 1 202%N 2).
Defined.

(** After [join_waitlist], [get_user_waitlist_position] gives the new
    entry's position, and that position is above the position of every
    row the event had, whatever its status: the user is last. *)
Theorem join_waitlist_puts_the_user_last
    now new_id user_id event_id requested_quantity st st1 :
  join_waitlist now new_id user_id event_id requested_quantity st = Ok st1 →
  ∃ p,
    get_user_waitlist_position user_id event_id st1 = Ok (Some p) ∧
    1 ≤ p ∧
    ∀ id w, waitlist st !! id = Some w →
            Waitlist.event_id w = event_id → Waitlist.position w < p.
Proof.
  intros Hjoin.
  pose proof (join_waitlist_entry _ _ _ _ _ _ _ Hjoin) as Hentry.
  destruct (join_waitlist_effect _ _ _ _ _ _ _ Hjoin) as (_ & Hpos & _).
  exists (_get_next_waitlist_position event_id st). split; [|split].
  - unfold get_user_waitlist_position, _get_user_waitlist_entry.
    by rewrite Hentry.
  - lia.
  - intros id w Hw Hev. by eapply next_waitlist_position_above.
Qed.

Lemma join_waitlist_puts_the_user_last_witness :
  ∃ st1,
    join_waitlist 0 203 9 1 2 two_waiting = Ok st1 ∧
    get_user_waitlist_position 9 1 st1 = Ok (Some 3).
Proof.
  eexists. split; [vm_compute; reflexivity|].
  destruct (join_waitlist_puts_the_user_last 0 203%N 9%N 1%N 2 two_waiting _
              ltac:(vm_compute; reflexivity)) as (p & Hp & _).
  rewrite Hp. vm_compute in Hp. by injection Hp as <-.
Defined.

Lemma reorder_waitlist_inv now event_id removed_position st st' :
  _reorder_waitlist_after_removal now event_id removed_position st = Ok st' →
  st' = set_waitlist
          ((λ w, if bool_decide (Waitlist.event_id w = event_id) &&
                    (removed_position <? Waitlist.position w) &&
                    Waitlist.non_terminal w
                 then Waitlist.with_position now (Waitlist.position w - 1) w
                 else w) <$> waitlist st) st.
Proof.
  unfold _reorder_waitlist_after_removal, update_waitlist_where.
  case_bool_decide; [|done]. by intros [= <-].
Qed.



(** A converted entry keeps its row, and with it the user's place under
    the unique constraint on (user, event): once an entry of a user was
    converted, no [join_waitlist] of that user for that event commits. *)
Theorem converted_user_cannot_rejoin
    now waitlist_id booking_id st st1 w :
  waitlist st !! waitlist_id = Some w →
  convert_waitlist_to_booking now waitlist_id booking_id st = Ok st1 →
  ∀ now' new_id requested_quantity,
    ∃ e, join_waitlist now' new_id (Waitlist.user_id w)
           (Waitlist.event_id w) requested_quantity st1 = Raise e.
Proof.
  intros Hw Hconvert now' new_id rq.
  apply (convert_waitlist_effect _ _ _ _ _ _ Hw) in Hconvert.
  apply reorder_waitlist_inv in Hconvert.
  destruct (join_waitlist now' new_id _ _ rq st1) as [st2|e] eqn:Hjoin;
    [|by eexists].
  exfalso.
  destruct (join_waitlist_inv _ _ _ _ _ _ _ Hjoin)
    as (e & _ & _ & _ & _ & Hrows & _).
  assert (∃ w', waitlist st1 !! waitlist_id = Some w' ∧
                Waitlist.user_id w' = Waitlist.user_id w ∧
                Waitlist.event_id w' = Waitlist.event_id w)
    as (w' & Hw' & Hu & Hev).
  { rewrite Hconvert. simpl. rewrite lookup_fmap, lookup_insert_eq. simpl.
    eexists. split; [done|]. by destruct (_ && _ && _). }
  eapply (filter_nil_not_elem_of _ _ (waitlist_id, w') Hrows).
  - simpl. by rewrite !bool_decide_eq_true_2.
  - by apply elem_of_map_to_list.
Qed.

Lemma converted_user_cannot_rejoin_witness :
  ∃ e, join_waitlist 7 203 8 1 5 second_converted = Raise e.
Proof.
  apply (converted_user_cannot_rejoin 6 202%N 900%N two_waiting
           second_converted (Waitlist.mk 8 1 1 2 WaitlistStatus.ACTIVE 0));
    vm_compute; reflexivity.
Defined.


(** ** The sweep of stale notifications *)

Lemma foldl_requeue_entry_raise now e l :
  foldl (requeue_entry now) (Raise e) l = Raise e.
Proof. by induction l as [|kv l IH]. Qed.

Lemma requeue_entry_inv now cur kv st1 :
  requeue_entry now (Ok cur) kv = Ok st1 →
  match waitlist cur !! kv.1 with
  | None => st1 = cur
  | Some w =>
      ∃ p,
        st1 = set_waitlist
                (<[kv.1 :=
                     Waitlist.mk (Waitlist.user_id w) (Waitlist.event_id w)
                       (Waitlist.requested_quantity w) p
                       WaitlistStatus.ACTIVE now]> (waitlist cur)) cur ∧
        ∀ id2 w2, waitlist cur !! id2 = Some w2 →
                  Waitlist.event_id w2 = Waitlist.event_id w →
                  Waitlist.position w2 < p
  end.
Proof.
  unfold requeue_entry. simpl.
  destruct (waitlist cur !! kv.1) as [w|] eqn:Hw; [|by intros [= <-]].
  unfold write_waitlist at 2.
  destruct (Waitlist.checks (Waitlist.with_status _ _ w)); simpl; [|done].
  set (cur1 := set_waitlist _ cur).
  unfold write_waitlist. destruct (Waitlist.checks _); simpl; [|done].
  intros [= <-].
  exists (_get_next_waitlist_position (Waitlist.event_id w) cur1).
  split.
  - unfold cur1, set_waitlist. simpl. by rewrite insert_insert_eq.
  - intros id2 w2 Hw2 Hev.
    destruct (decide (id2 = kv.1)) as [->|Hne].
    + assert (w2 = w) as -> by congruence.
      apply (next_waitlist_position_above _ cur1 kv.1
               (Waitlist.with_status now WaitlistStatus.EXPIRED w));
        [|done].
      unfold cur1. simpl. by rewrite lookup_insert_eq.
    + apply (next_waitlist_position_above _ cur1 id2 w2); [|done].
      unfold cur1. simpl. by rewrite lookup_insert_ne.
Qed.

Lemma foldl_requeue_entry_inv now l cur st' :
  NoDup l.*1 →
  foldl (requeue_entry now) (Ok cur) l = Ok st' →
  (∀ id, id ∉ l.*1 → waitlist st' !! id = waitlist cur !! id) ∧
  (∀ id w, id ∈ l.*1 → waitlist cur !! id = Some w →
     ∃ p,
       waitlist st' !! id =
         Some (Waitlist.mk (Waitlist.user_id w) (Waitlist.event_id w)
                 (Waitlist.requested_quantity w) p
                 WaitlistStatus.ACTIVE now) ∧
       ∀ id2 w2, waitlist cur !! id2 = Some w2 →
                 Waitlist.event_id w2 = Waitlist.event_id w →
                 Waitlist.position w2 < p) ∧
  events st' = events cur ∧ bookings st' = bookings cur ∧
  seats st' = seats cur ∧ seat_bookings st' = seat_bookings cur.
Proof.
  revert cur. induction l as [|kv l IH]; intros cur Hnd; cbn [foldl].
  { intros [= <-]. repeat split; try done.
    intros id w Hin. by apply elem_of_nil in Hin. }
  rewrite fmap_cons in Hnd. apply NoDup_cons in Hnd as [Hkv Hnd].
  destruct (requeue_entry now (Ok cur) kv) as [cur1|e] eqn:Hstep.
  2: { by rewrite foldl_requeue_entry_raise. }
  intros Hfold. destruct (IH cur1 Hnd Hfold) as (Hout & Hin & Htabs).
  apply requeue_entry_inv in Hstep. rewrite fmap_cons.
  destruct (waitlist cur !! kv.1) as [w1|] eqn:Hw1.
  - destruct Hstep as (p1 & Hcur1 & Hp1).
    set (w1' := Waitlist.mk _ _ _ p1 _ _) in Hcur1.
    assert (Hwl1 : waitlist cur1 = <[kv.1 := w1']> (waitlist cur))
      by (by rewrite Hcur1).
    assert (Htabs1 : events cur1 = events cur ∧ bookings cur1 = bookings cur ∧
                     seats cur1 = seats cur ∧
                     seat_bookings cur1 = seat_bookings cur)
      by (by rewrite Hcur1).
    clear Hcur1.
    split; [|split].
    + intros id Hid. apply not_elem_of_cons in Hid as [Hne Hid].
      by rewrite (Hout id Hid), Hwl1, lookup_insert_ne.
    + intros id w Hid Hw. apply elem_of_cons in Hid as [->|Hid].
      * assert (w = w1) as -> by congruence.
        exists p1. split; [|done].
        by rewrite (Hout kv.1 Hkv), Hwl1, lookup_insert_eq.
      * assert (id ≠ kv.1) as Hne by (by intros ->).
        destruct (Hin id w Hid) as (p & Hp & Hbound);
          [by rewrite Hwl1, lookup_insert_ne|].
        exists p. split; [done|]. intros id2 w2 Hw2 Hev.
        destruct (decide (id2 = kv.1)) as [->|Hne2].
        -- assert (w2 = w1) as -> by congruence.
           etransitivity; [apply (Hp1 kv.1 w1 Hw1 eq_refl)|].
           apply (Hbound kv.1 w1'); [by rewrite Hwl1, lookup_insert_eq|].
           done.
        -- apply (Hbound id2 w2); [by rewrite Hwl1, lookup_insert_ne|done].
    + destruct Htabs as (-> & -> & -> & ->). done.
  - subst cur1. split; [|split; [|done]].
    + intros id Hid. apply not_elem_of_cons in Hid as [_ Hid]. by apply Hout.
    + intros id w Hid Hw. apply elem_of_cons in Hid as [->|Hid];
        [congruence|]. by apply Hin.
Qed.

(** What [expire_waitlist_notifications] does when it commits.  It returns
    exactly the entries that were NOTIFIED and last written more than
    [waitlist_notification_timeout_hours] before [now].  Each of them is
    ACTIVE again, stamped [now], for the same user, event and quantity,
    at a position above every position the event's rows had; the other
    rows of the waitlist and the other tables are as before. *)
Theorem expire_waitlist_notifications_requeues settings now st st' expired :
  expire_waitlist_notifications settings now st = Ok (st', expired) →
  (∀ id, id ∈ expired ↔
     ∃ w, waitlist st !! id = Some w ∧
          Waitlist.status w = WaitlistStatus.NOTIFIED ∧
          Waitlist.updated_at w <
            now - hours (waitlist_notification_timeout_hours settings)) ∧
  (∀ id w, id ∈ expired → waitlist st !! id = Some w →
     ∃ p,
       waitlist st' !! id =
         Some (Waitlist.mk (Waitlist.user_id w) (Waitlist.event_id w)
                 (Waitlist.requested_quantity w) p
                 WaitlistStatus.ACTIVE now) ∧
       ∀ id2 w2, waitlist st !! id2 = Some w2 →
                 Waitlist.event_id w2 = Waitlist.event_id w →
                 Waitlist.position w2 < p) ∧
  (∀ id, id ∉ expired → waitlist st' !! id = waitlist st !! id) ∧
  events st' = events st ∧ bookings st' = bookings st ∧
  seats st' = seats st ∧ seat_bookings st' = seat_bookings st.
Proof.
  unfold expire_waitlist_notifications, try_except.
  set (entries := waitlist_rows _ st).
  destruct (foldl (requeue_entry now) (Ok st) entries) as [st1|e] eqn:Hfold;
    simpl; [|done].
  intros [= <- <-].
  assert (Hnd : NoDup entries.*1).
  { apply (sublist_NoDup _ (map_to_list (waitlist st)).*1);
      [apply NoDup_fst_map_to_list|].
    apply fmap_sublist, sublist_filter. }
  destruct (foldl_requeue_entry_inv now entries st st1 Hnd Hfold)
    as (Hout & Hin & Htabs).
  split; [|split; [|split]]; try done.
  intros id. rewrite list_elem_of_fmap. split.
  - intros ([id' w] & -> & Hrow). exists w.
    apply list_elem_of_filter in Hrow as [Hc Hrow].
    apply elem_of_map_to_list in Hrow. simpl in *.
    apply andb_true_iff in Hc as [Hs Ht].
    apply bool_decide_eq_true in Hs. apply Z.ltb_lt in Ht. done.
  - intros (w & Hw & Hs & Ht). exists (id, w). split; [done|].
    apply list_elem_of_filter. split; [|by apply elem_of_map_to_list].
    simpl. rewrite bool_decide_eq_true_2 by done.
    by rewrite (proj2 (Z.ltb_lt _ _) Ht).
Qed.

Lemma expire_waitlist_notifications_requeues_witness :
  ∃ st',
    expire_waitlist_notifications default_settings (hours 25) one_notified
      = Ok (st', [201%N]) ∧
    waitlist st' !! 201%N =
      Some (Waitlist.mk 7 1 2 2 WaitlistStatus.ACTIVE (hours 25)).
Proof.
  eexists. split; [vm_compute; reflexivity|].
  destruct (expire_waitlist_notifications_requeues default_settings
              (hours 25) one_notified _ [201%N]
              ltac:(vm_compute; reflexivity)) as (_ & Hin & _).
  destruct (Hin 201%N (Waitlist.mk 7 1 2 1 WaitlistStatus.NOTIFIED 5))
    as (p & Hp & _); [set_solver | by vm_compute |].
  vm_compute. reflexivity.
Defined.


(** ** Invariants of the booking engine *)

Lemma release_booking_capacity_events booking st st1 :
  _release_booking_capacity booking st = Ok st1 →
  events st1 = events st ∨
  ∃ e,
    events st !! Booking.event_id booking.2 = Some e ∧
    Event.checks
      (Event.with_capacity
         (Event.available_capacity e + Booking.quantity booking.2) e) = true ∧
    events st1 =
      <[Booking.event_id booking.2 :=
          Event.with_capacity
            (Event.available_capacity e + Booking.quantity booking.2) e]>
        (events st).
Proof.
  unfold _release_booking_capacity.
  destruct (seat_bookings_of booking.1 st).
  - unfold update_event_where.
    destruct (events st !! Booking.event_id booking.2) as [e|]; simpl.
    + destruct (Event.in_range _); simpl; [|done].
      destruct (Event.checks _) eqn:Hck; simpl; [|done].
      intros [= <-]. right. by exists e.
    + intros [= <-]. by left.
  - intros [= <-]. by left.
Qed.

(** Every committed step of the engine writes at most one event row,
    through a statement that the CHECK constraints passed. *)
Lemma booking_step_events settings st st' :
  map_Forall (λ _ e, Event.checks e = true) (events st) →
  booking_step settings st st' →
  events st' = events st ∨
  ∃ id e a,
    events st !! id = Some e ∧
    Event.checks (Event.with_capacity a e) = true ∧
    events st' = <[id := Event.with_capacity a e]> (events st).
Proof.
  intros Hinv Hstep.
  destruct Hstep as [now new_id user_id event_id quantity seat_ids st st' Hc
                    |now booking_id st st' Hc
                    |booking_id st st' Hc
                    |booking_id st st' Hc].
  - apply create_booking_effect in Hc
      as (e & b & He & _ & Hq & _ & _ & _ & _ & _ & _ & Hcase).
    destruct Hcase as [(s & ids & _ & Hev & _)|(_ & _ & _ & Hle & Hev)];
      [by left|].
    right. exists event_id, e, (Event.available_capacity e - quantity).
    split; [done|]. split; [|done].
    apply event_checks_reserve; [by apply (Hinv event_id)|lia|done].
  - left. by apply confirm_booking_frame in Hc as (? & _).
  - apply cancel_booking_effect in Hc
      as (b & st1 & _ & _ & Hrel & -> & _).
    apply release_booking_capacity_events in Hrel
      as [->|(e & He & Hck & ->)]; [by left|].
    right. simpl in *. by eexists _, e, _.
  - apply expire_booking_effect in Hc
      as [->|(b & st1 & _ & _ & Hrel & -> & _)]; [by left|].
    apply release_booking_capacity_events in Hrel
      as [->|(e & He & Hck & ->)]; [by left|].
    right. simpl in *. by eexists _, e, _.
Qed.

(** The event rows stay within their constraints.  If every event row
    satisfies the CHECK constraints of the table (in particular
    [0 <= available_capacity <= total_capacity]), so it is after any
    committed creation, confirmation, cancellation or expiry.  No event
    appears or disappears; date, total capacity, price and the flags of a
    row never change; its version never goes down, and goes up by one
    whenever its free capacity changes. *)
Theorem events_stay_consistent settings st st' :
  map_Forall (λ _ e, Event.checks e = true) (events st) →
  booking_step settings st st' →
  map_Forall (λ _ e, Event.checks e = true) (events st') ∧
  (∀ id, events st !! id = None → events st' !! id = None) ∧
  (∀ id e, events st !! id = Some e →
     ∃ e', events st' !! id = Some e' ∧
           Event.event_date e' = Event.event_date e ∧
           Event.total_capacity e' = Event.total_capacity e ∧
           Event.price e' = Event.price e ∧
           Event.has_seat_selection e' = Event.has_seat_selection e ∧
           Event.is_active e' = Event.is_active e ∧
           Event.version e ≤ Event.version e' ∧
           (Event.available_capacity e' ≠ Event.available_capacity e →
            Event.version e' = Event.version e + 1)).
Proof.
  intros Hinv Hstep.
  destruct (booking_step_events settings st st' Hinv Hstep)
    as [->|(k & e0 & a & He0 & Hck & ->)].
  { split; [done|]. split; [done|]. intros id e He. exists e.
    repeat split; try done; lia. }
  split; [|split].
  - intros id e. destruct (decide (id = k)) as [->|Hne].
    + rewrite lookup_insert_eq. by intros [= <-].
    + rewrite lookup_insert_ne by done. apply Hinv.
  - intros id Hid. rewrite lookup_insert_ne; [done|congruence].
  - intros id e He. destruct (decide (id = k)) as [->|Hne].
    + rewrite lookup_insert_eq. assert (e0 = e) as -> by congruence.
      eexists. split; [done|]. simpl. repeat split; try done; lia.
    + rewrite lookup_insert_ne by done. exists e.
      repeat split; try done; lia.
Qed.

Lemma events_stay_consistent_witness :
  map_Forall (λ _ e, Event.checks e = true) (events hall_with_ga_booking).
Proof.
  apply (events_stay_consistent default_settings hall hall_with_ga_booking).
  - intros id e. unfold hall. simpl.
    intros [<- <-]%lookup_singleton_Some. reflexivity.
  - apply (step_create _ 0 100%N 7%N 1%N 2 None). vm_compute. reflexivity.
Defined.

(** What a committed step does to the bookings table: one row is added
    (PENDING, with an expiry) or one row changes status. *)
Lemma booking_step_bookings settings st st' :
  booking_step settings st st' →
  bookings st' = bookings st ∨
  (∃ id b, bookings st !! id = None ∧
           Booking.status b = BookingStatus.PENDING ∧
           is_Some (Booking.expires_at b) ∧
           bookings st' = <[id := b]> (bookings st)) ∨
  (∃ id b s x, bookings st !! id = Some b ∧
           status_moves (Booking.status b) s ∧
           (s = BookingStatus.EXPIRED ∨ x = None) ∧
           s ≠ BookingStatus.PENDING ∧
           bookings st' =
             <[id := Booking.mk (Booking.user_id b) (Booking.event_id b)
                       (Booking.quantity b) (Booking.total_amount b) s x]>
               (bookings st)).
Proof.
  intros Hstep.
  destruct Hstep as [now new_id user_id event_id quantity seat_ids st st' Hc
                    |now booking_id st st' Hc
                    |booking_id st st' Hc
                    |booking_id st st' Hc].
  - apply create_booking_effect in Hc
      as (e & b & _ & Hnew & _ & _ & _ & Hs & Hexp & Hbk & _).
    right. left. by exists new_id, b.
  - apply confirm_booking_effect in Hc as (b & Hb & Hs & Hbk).
    right. right.
    exists booking_id, b, BookingStatus.CONFIRMED, None.
    split; [done|]. split; [right; left; by rewrite Hs|].
    split; [by right|]. by split.
  - apply cancel_booking_effect in Hc
      as (b & st1 & Hb & Hs & Hrel & _ & _ & _ & _ & Hbk).
    apply release_booking_capacity_effect in Hrel as (Hbk1 & _).
    right. right.
    exists booking_id, b, BookingStatus.CANCELLED, None.
    split; [done|]. split.
    { destruct Hs as [Hs|Hs]; rewrite Hs;
        [right; left; by split | right; right; by split]. }
    split; [by right|]. split; [done|]. by rewrite Hbk, Hbk1.
  - apply expire_booking_effect in Hc
      as [->|(b & st1 & Hb & Hs & Hrel & _ & _ & _ & _ & Hbk)]; [by left|].
    apply release_booking_capacity_effect in Hrel as (Hbk1 & _).
    right. right.
    exists booking_id, b, BookingStatus.EXPIRED, (Booking.expires_at b).
    split; [done|]. split; [right; left; by rewrite Hs|].
    split; [by left|]. split; [done|]. by rewrite Hbk, Hbk1.
Qed.

(** The life of a booking.  A committed creation, confirmation,
    cancellation or expiry never deletes a booking and never changes the
    user, event, quantity or amount of one; the status of a booking stays
    or moves out of PENDING or from CONFIRMED to CANCELLED, so a
    CANCELLED or EXPIRED booking keeps its status for good. *)
Theorem booking_lifecycle settings st st' :
  booking_step settings st st' →
  ∀ id b, bookings st !! id = Some b →
    ∃ b', bookings st' !! id = Some b' ∧
          Booking.user_id b' = Booking.user_id b ∧
          Booking.event_id b' = Booking.event_id b ∧
          Booking.quantity b' = Booking.quantity b ∧
          Booking.total_amount b' = Booking.total_amount b ∧
          status_moves (Booking.status b) (Booking.status b').
Proof.
  intros Hstep id b Hb.
  destruct (booking_step_bookings settings st st' Hstep)
    as [->|[(k & b0 & Hk & _ & _ & ->)|(k & b0 & s & x & Hk & Hm & _ & _ & ->)]].
  - exists b. repeat split; try done. by left.
  - exists b. rewrite lookup_insert_ne by congruence.
    repeat split; try done. by left.
  - destruct (decide (id = k)) as [->|Hne].
    + rewrite lookup_insert_eq. assert (b0 = b) as -> by congruence.
      eexists. by repeat split.
    + rewrite lookup_insert_ne by done. exists b.
      repeat split; try done. by left.
Qed.

Lemma booking_lifecycle_witness :
  ∃ st',
    cancel_booking 100 hall_with_ga_booking = Ok st' ∧
    ∃ b', bookings st' !! 100%N = Some b' ∧
          Booking.user_id b' = 7%N ∧ Booking.event_id b' = 1%N ∧
          Booking.quantity b' = 2 ∧ Booking.total_amount b' = 10000 ∧
          status_moves BookingStatus.PENDING (Booking.status b').
Proof.
  eexists. split; [vm_compute; reflexivity|].
  refine (booking_lifecycle default_settings hall_with_ga_booking _ _ 100%N
            (Booking.mk 7 1 2 10000 BookingStatus.PENDING (Some 900000000))
            _).
  - apply (step_cancel _ 100%N). vm_compute. reflexivity.
  - vm_compute. reflexivity.
Defined.

(** The expiry of a booking follows its status.  If every PENDING booking
    has an [expires_at] and no CONFIRMED or CANCELLED booking has one, so
    it is after any committed creation, confirmation, cancellation or
    expiry. *)
Theorem expiry_follows_status settings st st' :
  map_Forall (λ _ b, expiry_discipline b) (bookings st) →
  booking_step settings st st' →
  map_Forall (λ _ b, expiry_discipline b) (bookings st').
Proof.
  intros Hinv Hstep.
  destruct (booking_step_bookings settings st st' Hstep)
    as [->|[(k & b0 & Hk & Hs & Hx & ->)
           |(k & b0 & s & x & Hk & _ & Hx & Hs & ->)]]; [done|..].
  - apply map_Forall_insert_2; [|done].
    unfold expiry_discipline. by rewrite Hs.
  - apply map_Forall_insert_2; [|done].
    unfold expiry_discipline. simpl.
    destruct s; try done; by destruct Hx.
Qed.

Lemma expiry_follows_status_witness :
  map_Forall (λ _ b, expiry_discipline b) (bookings hall_with_ga_booking).
Proof.
  apply (expiry_follows_status default_settings hall hall_with_ga_booking).
  - unfold hall. simpl. apply map_Forall_empty.
  - apply (step_create _ 0 100%N 7%N 1%N 2 None). vm_compute. reflexivity.
Defined.


(** ** Dynamic pricing: time and waitlist factors *)

(** On a naive [event_date] the general definition is the factor as
    embedded first. *)
Lemma calculate_time_multiplier_naive now event :
  _calculate_time_multiplier_tz naive now event =
  Ok (_calculate_time_multiplier now event).
Proof. reflexivity. Qed.

(** The time factor of an event whose [event_date] is a naive datetime
    never falls as the event comes nearer: for two instants
    [now1 <= now2] the factor at [now2] is at least the factor at [now1].
    It lies between 0.9 and 1.2, and is 1.2 from two days before the event
    on, and after it.  For an event whose [event_date] is aware, as a
    query loads it from PostgreSQL, the subtraction is a [TypeError] and
    there is no factor. *)
Theorem time_multiplier_rises_towards_event now1 now2 event :
  now1 ≤ now2 →
  (∃ m1 m2,
     _calculate_time_multiplier_tz naive now1 event = Ok m1 ∧
     _calculate_time_multiplier_tz naive now2 event = Ok m2 ∧
     (m1 <= m2)%Q ∧ (9 # 10 <= m1)%Q ∧ (m1 <= 12 # 10)%Q ∧
     (Event.event_date event.2 - now1 < days 2 → m1 = 12 # 10)) ∧
  _calculate_time_multiplier_tz aware now1 event =
    Raise (Exn TypeError
             "can't subtract offset-naive and offset-aware datetimes").
Proof.
  intros Hnow. split; [|done].
  eexists _, _. split; [reflexivity|]. split; [reflexivity|].
  assert (Hdays : (Event.event_date event.2 - now2) / days 1 ≤
                  (Event.event_date event.2 - now1) / days 1).
  { apply Z.div_le_mono; [by vm_compute|lia]. }
  set (d1 := (Event.event_date event.2 - now1) / days 1) in *.
  set (d2 := (Event.event_date event.2 - now2) / days 1) in *.
  split; [|split; [|split]].
  - repeat match goal with
           | |- context [?a <=? ?b] => destruct (Z.leb_spec a b)
           end; first [lia | by vm_compute].
  - repeat match goal with
           | |- context [?a <=? ?b] => destruct (Z.leb_spec a b)
           end; by vm_compute.
  - repeat match goal with
           | |- context [?a <=? ?b] => destruct (Z.leb_spec a b)
           end; by vm_compute.
  - intros Hnear.
    assert (d1 < 2).
    { apply Z.div_lt_upper_bound; [by vm_compute|].
      unfold days in *. lia. }
    by rewrite (proj2 (Z.leb_le d1 1)) by lia.
Qed.

Lemma time_multiplier_rises_towards_event_witness :
  ∃ m1 m2,
    _calculate_time_multiplier_tz naive 0
      (1%N, Event.mk (days 10) 10 10 5000 true 1 true) = Ok m1 ∧
    _calculate_time_multiplier_tz naive (days 5)
      (1%N, Event.mk (days 10) 10 10 5000 true 1 true) = Ok m2 ∧
    (m1 <= m2)%Q.
Proof.
  destruct (time_multiplier_rises_towards_event 0 (days 5)
              (1%N, Event.mk (days 10) 10 10 5000 true 1 true)
              ltac:(by vm_compute))
    as [(m1 & m2 & H1 & H2 & Hle & _) _].
  by exists m1, m2.
Defined.


Lemma waitlist_multiplier_by_size (event : N * Event.t) (st : Store) :
  let n :=
    Z.of_nat (length (waitlist_rows
                (λ w, bool_decide (Waitlist.event_id w = event.1)) st)) in
  let d :=
    if 0 <? Event.available_capacity event.2
    then Event.available_capacity event.2 else 10 in
  _calculate_waitlist_multiplier event st =
    if 2 * d <=? n then 13 # 10
    else if d <=? n then 115 # 100
    else if d <=? 2 * n then 105 # 100
    else 1%Q.
Proof.
  intros n d. unfold _calculate_waitlist_multiplier. fold n.
  assert (Hd : 0 < d).
  { unfold d. destruct (Z.ltb_spec 0 (Event.available_capacity event.2)); lia. }
  destruct (Z.eqb_spec n 0) as [Hn|Hn].
  - repeat match goal with
           | |- context [?a <=? ?b] => destruct (Z.leb_spec a b)
           end; try reflexivity; lia.
  - rewrite <- (pressure_tier_quotient n d Hd). unfold d.
    by destruct (0 <? Event.available_capacity event.2).
Qed.

(** The waitlist factor never falls as the waitlist grows: of two states
    of the waitlist of an event with the same free capacity, the one with
    at least as many rows has at least the factor of the other.  The
    factor lies between 1.0 and 1.3. *)
Theorem waitlist_multiplier_grows_with_waitlist event st st' :
  (length (waitlist_rows
             (λ w, bool_decide (Waitlist.event_id w = event.1)) st)
   ≤ length (waitlist_rows
               (λ w, bool_decide (Waitlist.event_id w = event.1)) st'))%nat →
  (_calculate_waitlist_multiplier event st
   <= _calculate_waitlist_multiplier event st')%Q ∧
  (1 <= _calculate_waitlist_multiplier event st)%Q ∧
  (_calculate_waitlist_multiplier event st <= 13 # 10)%Q.
Proof.
  intros Hsize. rewrite !waitlist_multiplier_by_size.
  set (n := Z.of_nat (length (waitlist_rows _ st))).
  set (n' := Z.of_nat (length (waitlist_rows _ st'))).
  assert (n ≤ n') by (unfold n, n'; lia).
  set (d := if 0 <? _ then _ else _).
  split; [|split].
  - repeat match goal with
           | |- context [?a <=? ?b] => destruct (Z.leb_spec a b)
           end; first [lia | by vm_compute].
  - repeat match goal with
           | |- context [?a <=? ?b] => destruct (Z.leb_spec a b)
           end; by vm_compute.
  - repeat match goal with
           | |- context [?a <=? ?b] => destruct (Z.leb_spec a b)
           end; by vm_compute.
Qed.

Lemma waitlist_multiplier_grows_with_waitlist_witness :
  (_calculate_waitlist_multiplier
     (1%N, Event.mk 1000000000 10 1 5000 false 1 true) one_place_left
   <= _calculate_waitlist_multiplier
        (1%N, Event.mk 1000000000 10 1 5000 false 1 true) three_waiting)%Q.
Proof.
  apply (waitlist_multiplier_grows_with_waitlist
           (1%N, Event.mk 1000000000 10 1 5000 false 1 true)
           one_place_left three_waiting).
  vm_compute. lia.
Defined.


(** ** Seats side by side ([BulkBookingService]) *)

Lemma extend_group_prefix {T} (number : T → string) n rest turns :
  extend_group number n rest turns =
    take (length (extend_group number n rest turns)) rest ∧
  (length (extend_group number n rest turns) ≤ turns)%nat.
Proof.
  revert n rest. induction turns as [|k IH]; intros n rest; simpl.
  { by destruct rest. }
  destruct rest as [|x rest]; simpl; [split; [done|lia]|].
  destruct (seat_num (number x)) as [m|]; simpl; [|split; [done|lia]].
  case_bool_decide; simpl; [split; [done|lia]|].
  destruct (IH m rest) as [Heq Hle]. split; [by rewrite <- Heq|lia].
Qed.

Lemma extend_group_full {T} (number : T → string) n rest turns :
  length (extend_group number n rest turns) = turns ↔
  length (take turns rest) = turns ∧
  (λ seat, seat_num (number seat)) <$> take turns rest
    = Some <$> seqZ (n + 1) (Z.of_nat turns).
Proof.
  revert n rest. induction turns as [|k IH]; intros n rest.
  { simpl. by destruct rest. }
  destruct rest as [|x rest].
  { simpl. split; [done|]. by intros [? _]. }
  rewrite Nat2Z.inj_succ, seqZ_cons by lia.
  replace (Z.pred (Z.succ (Z.of_nat k))) with (Z.of_nat k) by lia.
  replace (Z.succ (n + 1)) with (n + 1 + 1) by lia.
  simpl. destruct (seat_num (number x)) as [m|]; simpl.
  2: { split; [done|]. by intros [_ [=]]. }
  case_bool_decide as Hm; simpl.
  { split; [done|]. intros [_ [= ? _]]. done. }
  assert (m = n + 1) as -> by (by destruct (decide (m = n + 1))).
  rewrite (inj_iff S), IH. split.
  - intros [Hlen Hnums]. split; [by rewrite Hlen|]. f_equal. exact Hnums.
  - intros [[= Hlen] [= Hnums]]. split; [exact Hlen|exact Hnums].
Qed.

Lemma find_group_from_spec {T} (number : T → string) seats turns quantity :
  (0 < quantity)%nat →
  let found := find_group_from number seats turns quantity in
  (found = [] ∧
   ∀ j, (j < turns)%nat →
        ¬ consecutive_run number quantity (take quantity (drop j seats))) ∨
  (∃ i, (i < turns)%nat ∧
        found = take quantity (drop i seats) ∧
        consecutive_run number quantity found ∧
        ∀ j, (j < i)%nat →
             ¬ consecutive_run number quantity
                 (take quantity (drop j seats))).
Proof.
  intros Hq. revert seats.
  induction turns as [|k IH]; intros seats; simpl.
  { left. split; [by destruct seats|]. intros j Hj. lia. }
  destruct seats as [|x rest].
  { left. split; [done|]. intros j _ [Hlen _].
    rewrite drop_nil, take_nil in Hlen. simpl in Hlen. lia. }
  assert (Hhere :
    consecutive_run number quantity (take quantity (x :: rest)) ↔
    ∃ n, seat_num (number x) = Some n ∧
         length (extend_group number n rest (quantity - 1)) =
           (quantity - 1)%nat).
  { destruct quantity as [|q]; [lia|].
    replace (S q - 1)%nat with q by lia. unfold consecutive_run. simpl.
    setoid_rewrite extend_group_full. split.
    - intros [[= Hlen] [n Hnums]].
      rewrite Nat2Z.inj_succ, seqZ_cons in Hnums by lia.
      replace (Z.pred (Z.succ (Z.of_nat q))) with (Z.of_nat q) in Hnums
        by lia.
      replace (Z.succ n) with (n + 1) in Hnums by lia.
      simpl in Hnums. injection Hnums as Hx Hnums. by exists n.
    - intros (n & Hx & Hlen & Hnums). split; [by rewrite Hlen|].
      exists n. rewrite Nat2Z.inj_succ, seqZ_cons by lia.
      replace (Z.pred (Z.succ (Z.of_nat q))) with (Z.of_nat q) by lia.
      replace (Z.succ n) with (n + 1) by lia.
      simpl. rewrite Hx. f_equal. exact Hnums. }
  assert (Hnext :
    ¬ consecutive_run number quantity (take quantity (x :: rest)) →
    let found := find_group_from number rest k quantity in
    (found = [] ∧
     ∀ j, (j < S k)%nat →
          ¬ consecutive_run number quantity
              (take quantity (drop j (x :: rest)))) ∨
    (∃ i, (i < S k)%nat ∧
          found = take quantity (drop i (x :: rest)) ∧
          consecutive_run number quantity found ∧
          ∀ j, (j < i)%nat →
               ¬ consecutive_run number quantity
                   (take quantity (drop j (x :: rest))))).
  { intros Hnot. simpl.
    destruct (IH rest) as [[Hnil Hnone]|(i & Hi & Hfound & Hrun & Hleast)].
    - left. split; [done|]. intros [|j] Hj; [done|]. simpl.
      apply Hnone. lia.
    - right. exists (S i). split; [lia|]. split; [done|]. split; [done|].
      intros [|j] Hj; [done|]. simpl. apply Hleast. lia. }
  cbn [find_group_from].
  destruct (seat_num (number x)) as [n|] eqn:Hx.
  2: { apply Hnext. rewrite Hhere. by intros (n & [=] & _). }
  case_bool_decide as Hlen.
  - right. exists 0%nat. split; [lia|].
    assert (Hrun : consecutive_run number quantity
                     (take quantity (x :: rest))).
    { apply Hhere. exists n. split; [done|]. simpl in Hlen. lia. }
    assert (Heq : x :: extend_group number n rest (quantity - 1) =
                  take quantity (x :: rest)).
    { destruct quantity as [|q]; [lia|].
      replace (S q - 1)%nat with q in * by lia. simpl. f_equal.
      destruct (extend_group_prefix number n rest q) as [Hpre _].
      rewrite Hpre. f_equal. simpl in Hlen. lia. }
    rewrite Heq. split; [done|]. split; [done|]. intros j Hj. lia.
  - apply Hnext. rewrite Hhere. intros (n' & [= <-] & Hfull).
    apply Hlen. simpl. lia.
Qed.

(** On seats whose numbers are ASCII text, [_find_contiguous_group] finds
    the first run of [quantity] seats side by side.  For [quantity >= 1]
    it returns either the [quantity] seats from the least index [i] at
    which the list holds [quantity] seats with numbers [n], [n + 1], ...,
    [n + quantity - 1] in this order, or the empty list when the list has
    no such run.  A seat whose number is not made of digits belongs to no
    run.  For [quantity <= 0] the search ends in an [IndexError]. *)
Theorem find_contiguous_group_first_run {T} (number : T → string)
    (seats : list T) (quantity : Z) :
  Forall (λ seat, ascii_number (number seat) = true) seats →
  (quantity ≤ 0 → _find_contiguous_group number seats quantity = None) ∧
  (0 < quantity →
   ∃ found,
     _find_contiguous_group number seats quantity = Some found ∧
     let q := Z.to_nat quantity in
     ((found = [] ∧
       ∀ j, ¬ consecutive_run number q (take q (drop j seats))) ∨
      (∃ i, found = take q (drop i seats) ∧
            consecutive_run number q found ∧
            ∀ j, (j < i)%nat →
                 ¬ consecutive_run number q (take q (drop j seats))))).
Proof.
  intros _. unfold _find_contiguous_group. split.
  - intros Hq. by rewrite (proj2 (Z.leb_le _ _) Hq).
  - intros Hq. rewrite (proj2 (Z.leb_gt _ _) Hq).
    eexists. split; [done|]. set (q := Z.to_nat quantity).
    destruct (find_group_from_spec number seats (length seats + 1 - q) q
                ltac:(lia))
      as [[Hnil Hnone]|(i & Hi & Hfound & Hrun & Hleast)].
    + left. split; [done|]. intros j.
      destruct (decide (j < length seats + 1 - q)%nat) as [Hj|Hj];
        [by apply Hnone|].
      intros [Hlen _]. rewrite length_take, length_drop in Hlen. lia.
    + right. by exists i.
Qed.

Lemma find_contiguous_group_first_run_witness :
  ∃ found,
    _find_contiguous_group id ["1"; "2"; "4"; "5"; "6"] 3 = Some found ∧
    ((found = [] ∧
      ∀ j, ¬ consecutive_run id 3
               (take 3 (drop j ["1"; "2"; "4"; "5"; "6"]))) ∨
     (∃ i, found = take 3 (drop i ["1"; "2"; "4"; "5"; "6"]) ∧
           consecutive_run id 3 found ∧
           ∀ j, (j < i)%nat →
                ¬ consecutive_run id 3
                    (take 3 (drop j ["1"; "2"; "4"; "5"; "6"])))).
Proof.
  refine (proj2 (find_contiguous_group_first_run id
                   ["1"; "2"; "4"; "5"; "6"] 3 _) _);
    [by repeat constructor | lia].
Defined.

Example find_contiguous_group_runs :
  _find_contiguous_group id ["1"; "2"; "4"; "5"; "6"] 3
    = Some ["4"; "5"; "6"] ∧
  _find_contiguous_group id ["A"; "2"; "3"] 2 = Some ["2"; "3"] ∧
  _find_contiguous_group id ["1"; "3"] 2 = Some [] ∧
  _find_contiguous_group id ["1"; "2"] 0 = None.
Proof. by vm_compute. Qed.
